(** * Ponder: a shallow embedding of the schema validator, the [start]
    command, the sync-store row encoders, the [eth_getLogs] helper and the
    database service's namespace lock.

    Each module embeds one source file.  JavaScript values are modelled as
    the TypeScript declarations type them: [string | undefined] is an
    [option string], objects used as records are association lists in
    [Object.entries] order, thrown errors are the [Throw] branch of a
    result type. *)

From Stdlib Require Import String Ascii ZArith Lia Bool.
From Stdlib Require Import DecimalString DecimalN HexadecimalString.
From stdpp Require Import base option list gmap strings.

Local Open Scope string_scope.
Local Open Scope list_scope.

(** ** Results of code that may throw *)

Inductive result (E A : Type) : Type :=
| Ok (a : A)
| Throw (e : E).
Arguments Ok {E A} a.
Arguments Throw {E A} e.

Definition rbind {E A B} (r : result E A) (k : A -> result E B) : result E B :=
  match r with
  | Ok a => k a
  | Throw e => Throw e
  end.

Notation "c ;;! k" := (rbind c (fun _ => k))
  (at level 100, k at level 200, right associativity).

(** [arr.forEach(f)] where [f] may throw: the first exception escapes. *)
Fixpoint forEach {E A} (f : A -> result E unit) (l : list A) : result E unit :=
  match l with
  | [] => Ok tt
  | x :: l' => f x ;;! forEach f l'
  end.

Definition is_ok {E A} (r : result E A) : bool :=
  match r with Ok _ => true | Throw _ => false end.

(** ** The parts of the JavaScript runtime the sources rely on *)

Module Js.

(** Code units are modelled by [ascii]; every unit above 127 is outside
    all the character classes below, as it is in JavaScript. *)
Definition in_range (lo hi c : ascii) : bool :=
  (nat_of_ascii lo <=? nat_of_ascii c)%nat && (nat_of_ascii c <=? nat_of_ascii hi)%nat.

Definition is_lower (c : ascii) : bool := in_range "a" "z" c.
Definition is_upper (c : ascii) : bool := in_range "A" "Z" c.
Definition is_digit (c : ascii) : bool := in_range "0" "9" c.

Fixpoint all_chars (p : ascii -> bool) (s : string) : bool :=
  match s with
  | EmptyString => true
  | String c s' => p c && all_chars p s'
  end.

(** [s.slice(0, n)] and [s.slice(n)] for [0 <= n]. *)
Fixpoint slice_to (n : nat) (s : string) : string :=
  match n, s with
  | S n', String c s' => String c (slice_to n' s')
  | _, _ => EmptyString
  end.

Fixpoint slice_from (n : nat) (s : string) : string :=
  match n, s with
  | S n', String _ s' => slice_from n' s'
  | _, _ => s
  end.

(** [s.split(sep)] for a one-character separator: never empty. *)
Fixpoint split (sep : ascii) (s : string) : list string :=
  match s with
  | EmptyString => [EmptyString]
  | String c s' =>
      if Ascii.eqb c sep then EmptyString :: split sep s'
      else match split sep s' with
           | [] => [String c EmptyString]
           | w :: ws => String c w :: ws
           end
  end.

(** Truthiness of a [string | undefined]. *)
Definition truthy (o : option string) : bool :=
  match o with
  | Some s => negb (String.eqb s "")
  | None => false
  end.

(** A [Set] object.  [SetData] is the internal slot that [add] fills; the
    properties that the [in] operator sees are the object's own (none)
    and those on its prototype chain, [Set.prototype] and
    [Object.prototype], which [add] never changes. *)
Record JsSet := { SetData : list string }.

Definition new_Set : JsSet := {| SetData := [] |}.

Definition Set_prototype_keys : list string :=
  [ "constructor"; "has"; "add"; "delete"; "clear"; "entries"; "forEach";
    "size"; "values"; "keys"; "union"; "intersection"; "difference";
    "symmetricDifference"; "isSubsetOf"; "isSupersetOf"; "isDisjointFrom" ].

Definition Object_prototype_keys : list string :=
  [ "constructor"; "__defineGetter__"; "__defineSetter__"; "hasOwnProperty";
    "__lookupGetter__"; "__lookupSetter__"; "isPrototypeOf";
    "propertyIsEnumerable"; "toString"; "valueOf"; "__proto__";
    "toLocaleString" ].

(** [key in set] *)
Definition prop_in (key : string) (set : JsSet) : bool :=
  bool_decide (key ∈ Set_prototype_keys ++ Object_prototype_keys).

(** [set.add(v)] *)
Definition Set_add (v : string) (set : JsSet) : JsSet :=
  {| SetData := if bool_decide (v ∈ SetData set) then SetData set
                else SetData set ++ [v] |}.

(** [set.has(v)], the membership test of the [Set] itself. *)
Definition Set_has (v : string) (set : JsSet) : bool :=
  bool_decide (v ∈ SetData set).

(** [s.toLowerCase()] on ASCII code units. *)
Definition lower_char (c : ascii) : ascii :=
  if is_upper c then ascii_of_nat (nat_of_ascii c + 32) else c.

Fixpoint String_toLowerCase (s : string) : string :=
  match s with
  | EmptyString => EmptyString
  | String c s' => String (lower_char c) (String_toLowerCase s')
  end.

(** Numbers.  The sources only read numerals, so a number is a natural or
    [NaN]; naturals are exact below 2^53. *)
Inductive number := Num (n : N) | NaN.

(** [Number(s)] for the numerals the sources meet: decimal digits (the
    empty string is 0) and [0x]-prefixed hexadecimal digits of either
    case.  Everything
    else is [NaN] here; JavaScript also reads signs, fractions, exponents
    and surrounding blanks. *)
Definition has_hex_prefix (s : string) : bool :=
  match s with
  | String c1 (String c2 _) =>
      Ascii.eqb c1 "0" && (Ascii.eqb c2 "x" || Ascii.eqb c2 "X")
  | _ => false
  end.

Definition Number (s : string) : number :=
  if has_hex_prefix s then
    match slice_from 2 s with
    | EmptyString => NaN
    | h =>
        match HexadecimalString.NilEmpty.uint_of_string (String_toLowerCase h) with
        | Some d => Num (N.of_hex_uint d)
        | None => NaN
        end
    end
  else
    match DecimalString.NilEmpty.uint_of_string s with
    | Some d => Num (N.of_uint d)
    | None => NaN
    end.

(** [a < b] and [a === b] on values that are a number or [undefined]:
    both are false as soon as one side is [NaN] or [undefined]. *)
Definition lt (a b : option number) : bool :=
  match a, b with
  | Some (Num x), Some (Num y) => N.ltb x y
  | _, _ => false
  end.

Definition strict_eq (a b : option number) : bool :=
  match a, b with
  | Some (Num x), Some (Num y) => N.eqb x y
  | None, None => true
  | _, _ => false
  end.

(** A number or [undefined] inside a template literal. *)
Definition to_string (a : option number) : string :=
  match a with
  | Some (Num n) => DecimalString.NilEmpty.string_of_uint (N.to_uint n)
  | Some NaN => "NaN"
  | None => "undefined"
  end.

End Js.

(** ** packages/core/src/schema/schema.ts *)

Module Schema.
Import Js.

(** The errors [schema] throws, one constructor per [throw] of the
    source, in source order; [JsTypeError] is the runtime's own error for
    reading a property of [undefined]. *)
Inductive SchemaError :=
| EmptyNameError             (* Table to column name can't be an empty string *)
| InvalidCharacterError      (* Table or column name contains an invalid character *)
| DuplicateEnumValuesError   (* ITEnum contains duplicate values *)
| MissingIdError             (* Table doesn't contain an id field *)
| IdTypeError                (* id is not of the correct type *)
| IdOptionalError            (* id cannot be optional *)
| IdListError                (* id cannot be a list *)
| IdReferenceError           (* id cannot be a reference *)
| InvalidReferenceError      (* Column doesn't reference a valid table *)
| ReferenceTypeError         (* Column type doesn't match the referred table id type *)
| ReferenceListError         (* Columns can't be both refernce and list types *)
| InvalidEnumError           (* Column doesn't reference a valid enum *)
| InvalidTypeError           (* Column is not a valid type *)
| JsTypeError.               (* Cannot read properties of undefined *)

(** [Column]; the field [list] of the source is [isList] here. *)
Record Column := {
  type : string;
  references : option string;
  optional : bool;
  isList : bool;
}.

(** [column(type, modifiers?)] *)
Definition column (ty : string) (refs : option string)
    (opt lst : option bool) : Column :=
  {| type := ty; references := refs;
     optional := default false opt; isList := default false lst |}.

Definition Table := list (string * Column).

(** [ITTable | ITEnum]: [isEnum] is the constructor, an enum's [table]
    is the empty object. *)
Inductive Entity :=
| ITTable (table : Table)
| ITEnum (values : list string).

Definition isEnum (e : Entity) : bool :=
  match e with ITEnum _ => true | ITTable _ => false end.

Definition table_of (e : Entity) : Table :=
  match e with ITTable t => t | ITEnum _ => [] end.

(** [obj[key]] on an object given by its entries. *)
Fixpoint prop {A} (key : string) (obj : list (string * A)) : option A :=
  match obj with
  | [] => None
  | (k, v) :: obj' => if String.eqb k key then Some v else prop key obj'
  end.

Definition referencedEntityName (refs : string) : string :=
  match split "." refs with
  | w :: _ => w
  | [] => ""
  end.

Definition isEnumType (ty : string) : bool :=
  String.eqb (slice_to 5 ty) "enum:".

(** The character class [[a-z|A-Z|0-9]] of the source's regular
    expression: inside brackets the bar is a member, not an alternation. *)
Definition name_class (c : ascii) : bool :=
  is_lower c || Ascii.eqb c "|" || is_upper c || is_digit c.

(** [/^[a-z|A-Z|0-9]+$/.test(key)] *)
Definition name_regex_test (key : string) : bool :=
  negb (String.eqb key "") && all_chars name_class key.

Definition validateTableOrColumnName (key : string) : result SchemaError unit :=
  if String.eqb key "" then Throw EmptyNameError
  else if negb (name_regex_test key) then Throw InvalidCharacterError
  else Ok tt.

(** The loop over [table.values], threading the [Set]. *)
Fixpoint enum_loop (set : JsSet) (values : list string) : result SchemaError unit :=
  match values with
  | [] => Ok tt
  | val :: rest =>
      if prop_in val set then Throw DuplicateEnumValuesError
      else enum_loop (Set_add val set) rest
  end.

Definition is_scalar (ty : string) : bool :=
  String.eqb ty "bigint" || String.eqb ty "string" || String.eqb ty "boolean"
  || String.eqb ty "int" || String.eqb ty "float" || String.eqb ty "bytes".

Definition is_id_type (ty : string) : bool :=
  String.eqb ty "bigint" || String.eqb ty "string" || String.eqb ty "bytes"
  || String.eqb ty "int".

Section Validation.
(** The whole schema object, as [Object.entries] enumerates it. *)
Variable schema_obj : list (string * Entity).

Definition validate_plain_column (col : Column) : result SchemaError unit :=
  if isEnumType (type col) then
    if forallb (fun e : string * Entity => negb (String.eqb e.1 (slice_from 5 (type col))))
         (filter (fun e : string * Entity => isEnum e.2 = true) schema_obj)
    then Throw InvalidEnumError else Ok tt
  else if negb (is_scalar (type col)) then Throw InvalidTypeError
  else Ok tt.

Definition validate_reference (tableName : string) (col : Column) (refs : string)
  : result SchemaError unit :=
  (if forallb (fun name : string => negb (String.eqb (name ++ ".id") refs))
        (filter (fun name : string => name ≠ tableName) (schema_obj.*1))
   then Throw InvalidReferenceError else Ok tt) ;;!
  forEach (fun e : string * Entity =>
             match prop "id" (table_of e.2) with
             | None => Throw JsTypeError
             | Some id =>
                 if negb (String.eqb (type id) (type col))
                 then Throw ReferenceTypeError else Ok tt
             end)
          (filter (fun e : string * Entity => e.1 = referencedEntityName refs) schema_obj) ;;!
  if isList col then Throw ReferenceListError else Ok tt.

Definition validate_column (tableName : string) (entry : string * Column)
  : result SchemaError unit :=
  let '(columnName, col) := entry in
  if String.eqb columnName "id" then Ok tt
  else
    validateTableOrColumnName columnName ;;!
    match references col with
    | Some refs =>
        if truthy (Some refs) then validate_reference tableName col refs
        else validate_plain_column col
    | None => validate_plain_column col
    end.

Definition validate_table (tableName : string) (table : Table)
  : result SchemaError unit :=
  match prop "id" table with
  | None => Throw MissingIdError
  | Some id =>
      if negb (is_id_type (type id)) then Throw IdTypeError
      else if optional id then Throw IdOptionalError
      else if isList id then Throw IdListError
      else if truthy (references id) then Throw IdReferenceError
      else forEach (validate_column tableName) table
  end.

Definition validate_entity (entry : string * Entity) : result SchemaError unit :=
  let '(tableName, table) := entry in
  validateTableOrColumnName tableName ;;!
  match table with
  | ITEnum values => enum_loop new_Set values
  | ITTable t => validate_table tableName t
  end.
End Validation.

Record SchemaResult := {
  tables : list (string * Table);
  enums : list (string * list string);
}.

(** The [reduce] that splits the entries; the keys of an object are
    distinct, so each spread appends. *)
Definition split_entries (schema_obj : list (string * Entity)) : SchemaResult :=
  fold_left
    (fun acc (e : string * Entity) =>
       match e.2 with
       | ITEnum values => {| tables := tables acc; enums := enums acc ++ [(e.1, values)] |}
       | ITTable t => {| tables := tables acc ++ [(e.1, t)]; enums := enums acc |}
       end)
    schema_obj {| tables := []; enums := [] |}.

Definition schema (schema_obj : list (string * Entity))
  : result SchemaError SchemaResult :=
  forEach (validate_entity schema_obj) schema_obj ;;!
  Ok (split_entries schema_obj).

(** The names the specification allows: one or more of A-Z, a-z, 0-9. *)
Definition is_alnum (c : ascii) : bool := is_upper c || is_lower c || is_digit c.

Definition spec_name_ok (key : string) : bool :=
  negb (String.eqb key "") && all_chars is_alnum key.

(** An enum as the specification has it: a set with unique members. *)
Definition spec_enum_ok (values : list string) : bool :=
  bool_decide (NoDup values).

End Schema.

(** ** The [start] command (src/unnamed/part_001) *)

Module Start.

(** What [start] does to its collaborators, in program order. *)
Inductive Event :=
| BuildOptions
| NewLoggerService
| LoggerFatal (service msg : string)
| LoggerKill
| ProcessExit (code : Z)
| LoggerDebug (service msg : string)
| NewMetricsService
| CreateTelemetry
| CreateBuildService
| SetupShutdown
| BuildServiceStart (watch : bool)
| BuildServiceKill
| Shutdown (reason : string) (code : Z)
| TelemetryRecord (name : string)
| Run.

(** A computation either returns or ends the process: [process.exit]
    does not come back. *)
Inductive Outcome (A : Type) :=
| Returned (a : A)
| Exited (code : Z).
Arguments Returned {A} a.
Arguments Exited {A} code.

Definition Proc (A : Type) : Type := list Event * Outcome A.

Definition ret {A} (a : A) : Proc A := ([], Returned a).

Definition emit (e : Event) : Proc unit := ([e], Returned tt).

Definition process_exit {A} (code : Z) : Proc A := ([ProcessExit code], Exited code).

Definition bind {A B} (m : Proc A) (k : A -> Proc B) : Proc B :=
  match m with
  | (t, Returned a) => let '(t', o) := k a in (t ++ t', o)
  | (t, Exited c) => (t, Exited c)
  end.

Notation "m >> k" := (bind m (fun _ => k)) (at level 90, right associativity).

(** [buildService.start({ watch: false })] resolves to a build or an error. *)
Inductive BuildResult :=
| StatusSuccess
| StatusError.

(** What the environment supplies. *)
Record Env := {
  process_versions_node : string;
  configRelPath : string;
  initialResult : BuildResult;
}.

(** [process.versions.node.split(".").map(Number)], destructured. *)
Definition node_version (env : Env) : option Js.number * option Js.number :=
  let parts := map Js.Number (Js.split "." (process_versions_node env)) in
  (parts !! 0%nat, parts !! 1%nat).

(** The callbacks handed to [run]. *)
Definition onFatalError : Proc unit := emit (Shutdown "Received fatal error" 1).
Definition onReloadableError : Proc unit := emit (Shutdown "Encountered indexing error" 1).

Definition start (env : Env) : Proc unit :=
  emit BuildOptions >>
  emit NewLoggerService >>
  let '(major, minor) := node_version env in
  (if Js.lt major (Some (Js.Num 18))
      || (Js.strict_eq major (Some (Js.Num 18)) && Js.lt minor (Some (Js.Num 14)))
   then
     emit (LoggerFatal "process"
             ("Invalid Node.js version. Expected >=18.14, detected "
              ++ Js.to_string major ++ "." ++ Js.to_string minor ++ ".")) >>
     emit LoggerKill >>
     process_exit 1
   else ret tt) >>
  emit (LoggerDebug "app" ("Started using config file: " ++ configRelPath env)) >>
  emit NewMetricsService >>
  emit CreateTelemetry >>
  emit CreateBuildService >>
  emit SetupShutdown >>
  emit (BuildServiceStart false) >>
  emit BuildServiceKill >>
  match initialResult env with
  | StatusError =>
      emit (Shutdown "Failed intial build" 1) >>
      ret tt
  | StatusSuccess =>
      emit (TelemetryRecord "lifecycle:session_start") >>
      emit Run >>
      ret tt
  end.

(** The reason the specification lists for a failed first build. *)
Definition spec_failed_build_reason : string := "Failed initial build".

End Start.

(** ** Helpers of [@/utils] *)

Module Utils.

(** Modelled from the spec: [toLowerCase] of [@/utils/lowercase.js], which
    is not among the sources.  The specification does not describe the
    helper either: it is taken by its name and by the use the sources make
    of it, as the string's own [toLowerCase()], typed [Lowercase<T>], here
    on ASCII code units (addresses and hashes are [0x]-prefixed
    hexadecimal text). *)
Definition toLowerCase (value : string) : string := Js.String_toLowerCase value.

(** No capital letter A-Z occurs in the string. *)
Definition is_lowercase (s : string) : bool :=
  Js.all_chars (fun c => negb (Js.is_upper c)) s.

End Utils.

(** ** Sync-store row encoders (src/unnamed/part_002, first file)

    A field the source reads through a non-null assertion is typed as
    present; [x | null] and [x | undefined] are options. *)

Module RpcBlock.
Record t := {
  baseFeePerGas : option string;
  difficulty : string;
  extraData : string;
  gasLimit : string;
  gasUsed : string;
  hash : string;
  logsBloom : string;
  miner : string;
  mixHash : option string;
  nonce : option string;
  number : string;
  parentHash : string;
  receiptsRoot : string;
  sha3Uncles : option string;
  size : string;
  stateRoot : string;
  timestamp : string;
  totalDifficulty : option string;
  transactionsRoot : string;
}.
End RpcBlock.

Module InsertableBlock.
Record t := {
  baseFeePerGas : option string;
  difficulty : string;
  extraData : string;
  gasLimit : string;
  gasUsed : string;
  hash : string;
  logsBloom : string;
  miner : string;
  mixHash : option string;
  nonce : option string;
  number : string;
  parentHash : string;
  receiptsRoot : string;
  sha3Uncles : option string;
  size : string;
  stateRoot : string;
  timestamp : string;
  totalDifficulty : option string;
  transactionsRoot : string;
}.
End InsertableBlock.

Module RpcTransaction.
Record t (AccessList : Type) := {
  accessList : option AccessList;
  blockHash : string;
  blockNumber : string;
  from : string;
  gas : string;
  gasPrice : option string;
  hash : string;
  input : string;
  maxFeePerGas : option string;
  maxPriorityFeePerGas : option string;
  nonce : string;
  r : option string;
  s : option string;
  to : option string;
  transactionIndex : option string;
  type : option string;
  value : string;
  v : option string;
}.
Arguments accessList {_} _.
Arguments blockHash {_} _.
Arguments blockNumber {_} _.
Arguments from {_} _.
Arguments gas {_} _.
Arguments gasPrice {_} _.
Arguments hash {_} _.
Arguments input {_} _.
Arguments maxFeePerGas {_} _.
Arguments maxPriorityFeePerGas {_} _.
Arguments nonce {_} _.
Arguments r {_} _.
Arguments s {_} _.
Arguments to {_} _.
Arguments transactionIndex {_} _.
Arguments type {_} _.
Arguments value {_} _.
Arguments v {_} _.
End RpcTransaction.

Module InsertableTransaction.
Record t := {
  accessList : option string;
  blockHash : string;
  blockNumber : string;
  from : string;
  gas : string;
  gasPrice : option string;
  hash : string;
  input : string;
  maxFeePerGas : option string;
  maxPriorityFeePerGas : option string;
  nonce : Js.number;
  r : option string;
  s : option string;
  to : option string;
  transactionIndex : Js.number;
  type : string;
  value : string;
  v : option string;
}.
End InsertableTransaction.

Module RpcLog.
Record t := {
  address : string;
  blockHash : string;
  blockNumber : string;
  data : string;
  logIndex : string;
  topics : list string;
  transactionHash : string;
  transactionIndex : string;
}.
End RpcLog.

Module InsertableLog.
Record t := {
  address : string;
  blockHash : string;
  blockNumber : string;
  data : string;
  id : string;
  logIndex : Js.number;
  topic0 : option string;
  topic1 : option string;
  topic2 : option string;
  topic3 : option string;
  transactionHash : string;
  transactionIndex : Js.number;
}.
End InsertableLog.

Module RpcTransactionReceipt.
Record t := {
  blockHash : string;
  blockNumber : string;
  contractAddress : option string;
  cumulativeGasUsed : string;
  effectiveGasPrice : string;
  from : string;
  gasUsed : string;
  logs : list RpcLog.t;
  logsBloom : string;
  status : string;
  to : option string;
  transactionHash : string;
  transactionIndex : string;
  type : string;
}.
End RpcTransactionReceipt.

Module TransactionReceiptsRow.
Record t := {
  blockHash : string;
  blockNumber : string;
  contractAddress : option string;
  cumulativeGasUsed : string;
  effectiveGasPrice : string;
  from : string;
  gasUsed : string;
  logs : string;
  logsBloom : string;
  status : string;
  to : option string;
  transactionHash : string;
  transactionIndex : Js.number;
  type : string;
}.
End TransactionReceiptsRow.

Module Encoding.
Import Utils.

(** [x ? f(x) : null] on a [string | null]. *)
Definition if_truthy (f : string -> string) (x : option string) : option string :=
  match x with
  | Some s => if Js.truthy (Some s) then Some (f s) else None
  | None => None
  end.

(** [Number(x)] on a [string | null]: [Number(null)] is 0. *)
Definition Number_nullable (x : option string) : Js.number :=
  match x with
  | Some s => Js.Number s
  | None => Js.Num 0
  end.

Section Encoders.
(** [encodeAsText] of [@/utils/encoding.js], viem's [hexToNumber] and
    [JSON.stringify] are taken as given. *)
Variable encodeAsText : string -> string.
Variable hexToNumber : string -> Js.number.
Variable AccessList : Type.
Variable JSON_stringify_accessList : AccessList -> string.
Variable JSON_stringify_logs : list RpcLog.t -> string.

Definition rpcToSqliteBlock (block : RpcBlock.t) : InsertableBlock.t :=
  {| InsertableBlock.baseFeePerGas := if_truthy encodeAsText (RpcBlock.baseFeePerGas block);
     InsertableBlock.difficulty := encodeAsText (RpcBlock.difficulty block);
     InsertableBlock.extraData := RpcBlock.extraData block;
     InsertableBlock.gasLimit := encodeAsText (RpcBlock.gasLimit block);
     InsertableBlock.gasUsed := encodeAsText (RpcBlock.gasUsed block);
     InsertableBlock.hash := RpcBlock.hash block;
     InsertableBlock.logsBloom := RpcBlock.logsBloom block;
     InsertableBlock.miner := toLowerCase (RpcBlock.miner block);
     InsertableBlock.mixHash := RpcBlock.mixHash block;
     InsertableBlock.nonce := RpcBlock.nonce block;
     InsertableBlock.number := encodeAsText (RpcBlock.number block);
     InsertableBlock.parentHash := RpcBlock.parentHash block;
     InsertableBlock.receiptsRoot := RpcBlock.receiptsRoot block;
     InsertableBlock.sha3Uncles := RpcBlock.sha3Uncles block;
     InsertableBlock.size := encodeAsText (RpcBlock.size block);
     InsertableBlock.stateRoot := RpcBlock.stateRoot block;
     InsertableBlock.timestamp := encodeAsText (RpcBlock.timestamp block);
     InsertableBlock.totalDifficulty := if_truthy encodeAsText (RpcBlock.totalDifficulty block);
     InsertableBlock.transactionsRoot := RpcBlock.transactionsRoot block |}.

Definition rpcToSqliteTransaction (transaction : RpcTransaction.t AccessList)
  : InsertableTransaction.t :=
  {| InsertableTransaction.accessList :=
       JSON_stringify_accessList <$> RpcTransaction.accessList transaction;
     InsertableTransaction.blockHash := RpcTransaction.blockHash transaction;
     InsertableTransaction.blockNumber := encodeAsText (RpcTransaction.blockNumber transaction);
     InsertableTransaction.from := toLowerCase (RpcTransaction.from transaction);
     InsertableTransaction.gas := encodeAsText (RpcTransaction.gas transaction);
     InsertableTransaction.gasPrice := if_truthy encodeAsText (RpcTransaction.gasPrice transaction);
     InsertableTransaction.hash := RpcTransaction.hash transaction;
     InsertableTransaction.input := RpcTransaction.input transaction;
     InsertableTransaction.maxFeePerGas :=
       if_truthy encodeAsText (RpcTransaction.maxFeePerGas transaction);
     InsertableTransaction.maxPriorityFeePerGas :=
       if_truthy encodeAsText (RpcTransaction.maxPriorityFeePerGas transaction);
     InsertableTransaction.nonce := hexToNumber (RpcTransaction.nonce transaction);
     InsertableTransaction.r := RpcTransaction.r transaction;
     InsertableTransaction.s := RpcTransaction.s transaction;
     InsertableTransaction.to := if_truthy toLowerCase (RpcTransaction.to transaction);
     InsertableTransaction.transactionIndex :=
       Number_nullable (RpcTransaction.transactionIndex transaction);
     InsertableTransaction.type := default "0x0" (RpcTransaction.type transaction);
     InsertableTransaction.value := encodeAsText (RpcTransaction.value transaction);
     InsertableTransaction.v := if_truthy encodeAsText (RpcTransaction.v transaction) |}.

Definition rpcToSqliteTransactionReceipt (transactionReceipt : RpcTransactionReceipt.t)
  : TransactionReceiptsRow.t :=
  {| TransactionReceiptsRow.blockHash := RpcTransactionReceipt.blockHash transactionReceipt;
     TransactionReceiptsRow.blockNumber :=
       encodeAsText (RpcTransactionReceipt.blockNumber transactionReceipt);
     TransactionReceiptsRow.contractAddress :=
       if_truthy toLowerCase (RpcTransactionReceipt.contractAddress transactionReceipt);
     TransactionReceiptsRow.cumulativeGasUsed :=
       encodeAsText (RpcTransactionReceipt.cumulativeGasUsed transactionReceipt);
     TransactionReceiptsRow.effectiveGasPrice :=
       encodeAsText (RpcTransactionReceipt.effectiveGasPrice transactionReceipt);
     TransactionReceiptsRow.from := toLowerCase (RpcTransactionReceipt.from transactionReceipt);
     TransactionReceiptsRow.gasUsed :=
       encodeAsText (RpcTransactionReceipt.gasUsed transactionReceipt);
     TransactionReceiptsRow.logs :=
       JSON_stringify_logs (RpcTransactionReceipt.logs transactionReceipt);
     TransactionReceiptsRow.logsBloom := RpcTransactionReceipt.logsBloom transactionReceipt;
     TransactionReceiptsRow.status := RpcTransactionReceipt.status transactionReceipt;
     TransactionReceiptsRow.to :=
       if_truthy toLowerCase (RpcTransactionReceipt.to transactionReceipt);
     TransactionReceiptsRow.transactionHash :=
       RpcTransactionReceipt.transactionHash transactionReceipt;
     TransactionReceiptsRow.transactionIndex :=
       Js.Number (RpcTransactionReceipt.transactionIndex transactionReceipt);
     TransactionReceiptsRow.type := RpcTransactionReceipt.type transactionReceipt |}.

(** [log.topics[i] ? log.topics[i] : null] *)
Definition topic (log : RpcLog.t) (i : nat) : option string :=
  match RpcLog.topics log !! i with
  | Some x => if_truthy (fun x => x) (Some x)
  | None => None
  end.

Definition rpcToSqliteLog (log : RpcLog.t) : InsertableLog.t :=
  {| InsertableLog.address := toLowerCase (RpcLog.address log);
     InsertableLog.blockHash := RpcLog.blockHash log;
     InsertableLog.blockNumber := encodeAsText (RpcLog.blockNumber log);
     InsertableLog.data := RpcLog.data log;
     InsertableLog.id := RpcLog.blockHash log ++ "-" ++ RpcLog.logIndex log;
     InsertableLog.logIndex := Js.Number (RpcLog.logIndex log);
     InsertableLog.topic0 := topic log 0;
     InsertableLog.topic1 := topic log 1;
     InsertableLog.topic2 := topic log 2;
     InsertableLog.topic3 := topic log 3;
     InsertableLog.transactionHash := RpcLog.transactionHash log;
     InsertableLog.transactionIndex := Js.Number (RpcLog.transactionIndex log) |}.

End Encoders.

(** The columns of each row that are typed [Address]. *)
Definition block_addresses (row : InsertableBlock.t) : list string :=
  [InsertableBlock.miner row].

Definition transaction_addresses (row : InsertableTransaction.t) : list string :=
  InsertableTransaction.from row :: option_list (InsertableTransaction.to row).

Definition receipt_addresses (row : TransactionReceiptsRow.t) : list string :=
  option_list (TransactionReceiptsRow.contractAddress row)
  ++ TransactionReceiptsRow.from row :: option_list (TransactionReceiptsRow.to row).

Definition log_addresses (row : InsertableLog.t) : list string :=
  [InsertableLog.address row].

End Encoding.

(** ** The [eth_getLogs] helper of the sync service (src/unnamed/part_002,
    second file) *)

Module SyncService.
Import Utils.

(** [Address | Address[]] *)
Inductive AddressParam :=
| Single (a : string)
| Many (l : list string).

(** [Hex | number] *)
Inductive BlockRef :=
| HexBlock (h : string)
| NumberBlock (n : N).

(** [LogTopic]: [Hex | Hex[] | null] *)
Inductive LogTopic :=
| TopicNull
| TopicHex (h : string)
| TopicAnyOf (hs : list string).

Inductive BlockSelector :=
| ByRange (fromBlock toBlock : BlockRef)
| ByHash (blockHash : string).

Record Params := {
  address : option AddressParam;
  topics : option (list LogTopic);
  selector : BlockSelector;
}.

(** The filter object of an [eth_getLogs] request. *)
Inductive Filter :=
| HashFilter (blockHash : string)
    (topics : option (list LogTopic)) (address : option AddressParam)
| RangeFilter (fromBlock toBlock : string)
    (topics : option (list LogTopic)) (address : option AddressParam).

Definition filter_topics (f : Filter) : option (list LogTopic) :=
  match f with
  | HashFilter _ t _ | RangeFilter _ _ t _ => t
  end.

Definition filter_address (f : Filter) : option AddressParam :=
  match f with
  | HashFilter _ _ a | RangeFilter _ _ _ a => a
  end.

Record Range := { fromBlock : string; toBlock : string }.

(** The answer of [getLogsRetryHelper] of [@ponder/utils]. *)
Inductive GetLogsRetryHelperReturnType :=
| ShouldRetry (ranges : list Range)
| ShouldNotRetry.

(** [params.address ? (Array.isArray(..) ? ..map(toLowerCase) : toLowerCase(..))
    : undefined]: an array is always truthy, the empty string is not. *)
Definition lower_address (a : option AddressParam) : option AddressParam :=
  match a with
  | Some (Many l) => Some (Many (map toLowerCase l))
  | Some (Single s) => if Js.truthy (Some s) then Some (Single (toLowerCase s)) else None
  | None => None
  end.

(** [Promise.all]: the results in order, or a rejection.  Which rejection
    wins is a matter of timing; the model takes the first in list order. *)
Fixpoint promise_all {E A} (l : list (result E A)) : result E (list A) :=
  match l with
  | [] => Ok []
  | Ok a :: l' => rbind (promise_all l') (fun r => Ok (a :: r))
  | Throw e :: l' => Throw e
  end.

(** What [_eth_getLogs] asks of the request queue and the logger. *)
Inductive Event :=
| Request (f : Filter)
| LoggerDebug (service : string) (ranges : list Range).

Section GetLogs.
Variable SyncLog : Type.
Variable RpcError : Type.
(** viem's [numberToHex]. *)
Variable numberToHex : N -> string.
(** The node behind [requestQueue.request], taken to answer a given
    filter the same way whenever it is asked. *)
Variable request : Filter -> result RpcError (list SyncLog).
Variable getLogsRetryHelper : Filter -> RpcError -> GetLogsRetryHelperReturnType.

Definition block_hex (b : BlockRef) : string :=
  match b with
  | NumberBlock n => numberToHex n
  | HexBlock h => h
  end.

(** The filter a call sends first: the object literal of either branch. *)
Definition request_filter (params : Params) : Filter :=
  match selector params with
  | ByHash h => HashFilter h (topics params) (lower_address (address params))
  | ByRange fb tb =>
      RangeFilter (block_hex fb) (block_hex tb)
        (topics params) (lower_address (address params))
  end.

(** The parameters of the recursive call for one proposed range. *)
Definition sub_params (_params : Filter) (r : Range) : Params :=
  {| topics := filter_topics _params;
     address := filter_address _params;
     selector := ByRange (HexBlock (fromBlock r)) (HexBlock (toBlock r)) |}.

(** [_eth_getLogs]: the recursion depth is not bounded by the source, so
    the embedding takes fuel and answers [None] when it runs out.  The
    events are listed call by call, one linearisation of the concurrent
    sub-calls. *)
Fixpoint _eth_getLogs (fuel : nat) (params : Params)
  : option (list Event * result RpcError (list SyncLog)) :=
  match fuel with
  | O => None
  | S fuel' =>
      match selector params with
      | ByHash h =>
          let f := HashFilter h (topics params) (lower_address (address params)) in
          Some ([Request f], request f)
      | ByRange fb tb =>
          let _params :=
            RangeFilter (block_hex fb) (block_hex tb)
              (topics params) (lower_address (address params)) in
          match request _params with
          | Ok l => Some ([Request _params], Ok l)
          | Throw err =>
              match getLogsRetryHelper _params err with
              | ShouldNotRetry => Some ([Request _params], Throw err)
              | ShouldRetry ranges =>
                  match mapM (fun r => _eth_getLogs fuel' (sub_params _params r)) ranges with
                  | None => None
                  | Some outs =>
                      Some (Request _params :: LoggerDebug "historical" ranges
                              :: concat (outs.*1),
                            rbind (promise_all (outs.*2)) (fun l => Ok (concat l)))
                  end
              end
          end
      end
  end.

End GetLogs.

(** A sample node that refuses the range 0-100 as too large and answers
    its two halves, with the retry helper that proposes them. *)
Definition sample_request (f : Filter) : result string (list string) :=
  match f with
  | RangeFilter "0x0" "0x64" _ _ => Throw "query returned more than 10000 results"
  | RangeFilter "0x0" "0x32" _ _ => Ok ["log1"; "log2"]
  | RangeFilter "0x33" "0x64" _ _ => Ok ["log3"]
  | _ => Throw "invalid params"
  end.

Definition sample_helper (f : Filter) (e : string) : GetLogsRetryHelperReturnType :=
  if String.eqb e "query returned more than 10000 results" then
    ShouldRetry [ {| fromBlock := "0x0"; toBlock := "0x32" |};
                  {| fromBlock := "0x33"; toBlock := "0x64" |} ]
  else ShouldNotRetry.

Definition sample_numberToHex (n : N) : string :=
  match n with
  | 0%N => "0x0"
  | 50%N => "0x32"
  | 51%N => "0x33"
  | _ => "0x64"
  end.

Definition sample_params : Params :=
  {| address := Some (Single "0x5FbDB2315678afecb367f032d93F642f64180aa3");
     topics := Some [TopicHex "0xddf2"; TopicNull];
     selector := ByRange (NumberBlock 0) (NumberBlock 100) |}.

End SyncService.

(** ** The database service and its namespace lock

    [database/sqlite/service.ts] is not among the sources; only its test
    file is.  The service is modelled from the specification's section on
    the database service and the namespace lock. *)

Module Database.

#[global] Instance Column_eq_dec : EqDecision Schema.Column.
Proof. solve_decision. Defined.

#[global] Instance SchemaResult_eq_dec : EqDecision Schema.SchemaResult.
Proof. solve_decision. Defined.

(** Modelled from the spec: the checkpoint of [@/utils/checkpoint.js], a
    tuple compared lexicographically; [zeroCheckpoint] is all zeros. *)
Record Checkpoint := {
  blockTimestamp : N;
  chainId : N;
  blockNumber : N;
  transactionIndex : N;
  eventIndex : N;
}.

#[global] Instance Checkpoint_eq_dec : EqDecision Checkpoint.
Proof. solve_decision. Defined.

Definition zeroCheckpoint : Checkpoint :=
  {| blockTimestamp := 0; chainId := 0; blockNumber := 0;
     transactionIndex := 0; eventIndex := 0 |}.

Definition checkpoint_fields (c : Checkpoint) : list N :=
  [blockTimestamp c; chainId c; blockNumber c; transactionIndex c; eventIndex c].

Fixpoint lex_leb (a b : list N) : bool :=
  match a, b with
  | x :: a', y :: b' => N.ltb x y || (N.eqb x y && lex_leb a' b')
  | [], _ => true
  | _ :: _, [] => false
  end.

Definition checkpoint_leb (a b : Checkpoint) : bool :=
  lex_leb (checkpoint_fields a) (checkpoint_fields b).

(** Modelled from the spec: a row of an indexing table, tagged with the
    checkpoint of the event that wrote it. *)
Record Row := {
  row_id : string;
  row_checkpoint : Checkpoint;
  row_data : list (string * string);
}.

(** Modelled from the spec: what a namespace holds under a name, the
    user-friendly view onto one of the service's live tables or a table
    somebody else created. *)
Inductive NsObject :=
| View (physical : string)
| ExternalTable (columns : list (string * string)) (rows : list (list string)).

#[global] Instance NsObject_eq_dec : EqDecision NsObject.
Proof. solve_decision. Defined.

(** Modelled from the spec: the row of the namespace lock, keyed by its
    namespace in [namespace_lock]. *)
Record LockRow := {
  is_locked : Z;
  heartbeat_at : Z;
  build_id : string;
  finalized_checkpoint : Checkpoint;
  schema_json : Schema.SchemaResult;
}.

(** Modelled from the spec: the cached finalized rows of one build and
    their common checkpoint. *)
Record CacheEntry := {
  cache_checkpoint : Checkpoint;
  cache_tables : list (string * list Row);
}.

(** Modelled from the spec: the persisted state, that is the lock table,
    the live tables under their physical names, the objects of each user
    namespace in creation order, and the cache by build. *)
Record Db := {
  namespace_lock : gmap string LockRow;
  live : list (string * list Row);
  namespaces : gmap string (list (string * NsObject));
  ponder_cache : gmap string CacheEntry;
}.

Definition empty_db : Db :=
  {| namespace_lock := ∅; live := []; namespaces := ∅; ponder_cache := ∅ |}.

Inductive DbError :=
| NamespaceLocked (namespace : string) (msUntilExpiry : Z)
| TableNameCollision (namespace tableName : string).

(** One service instance; [userNamespace] defaults to [public]. *)
Record Instance := { userNamespace : string }.

Definition default_instance : Instance := {| userNamespace := "public" |}.

Record SetupArgs := {
  schema : Schema.SchemaResult;
  buildId : string;
}.

(** [getTableNames(db, ns)] of the test file. *)
Definition getTableNames (db : Db) (ns : string) : list string :=
  (default [] (namespaces db !! ns)).*1.

Definition table_names (s : Schema.SchemaResult) : list string :=
  (Schema.tables s).*1.

Section Service.
(** [hash] of [@/utils/hash.js] and the lease's time to live (60 s by
    default) are taken as given. *)
Variable hash : list string -> string.
Variable leaseTtl : Z.

(** Modelled from the spec: the lock is dead when
    [now - heartbeat_at > leaseTtl]. *)
Definition lease_expired (now : Z) (row : LockRow) : bool :=
  Z.ltb leaseTtl (now - heartbeat_at row).

(** Modelled from the spec, step 2 of [setup]: no row, or not locked, or
    the lease expired. *)
Definition can_acquire (now : Z) (row : option LockRow) : bool :=
  match row with
  | None => true
  | Some r => Z.eqb (is_locked r) 0 || lease_expired now r
  end.

(** Modelled from the spec: the physical name of a live table,
    [hash(namespace, buildId, tableName)]. *)
Definition live_name (ns build table : string) : string := hash [ns; build; table].

(** Modelled from the spec: the objects a build left in its namespace,
    matched by the hash-name pattern and the lock row's metadata: a view
    named after a table of the recorded schema that points at that build's
    physical table. *)
Definition produced_by (ns : string) (row : LockRow) (o : string * NsObject) : bool :=
  match o.2 with
  | View p =>
      bool_decide (o.1 ∈ table_names (schema_json row))
      && String.eqb p (live_name ns (build_id row) o.1)
  | ExternalTable _ _ => false
  end.

Definition live_names_of (ns : string) (row : LockRow) : list string :=
  map (live_name ns (build_id row)) (table_names (schema_json row)).

(** The objects of the namespace that the build of [row] did not produce. *)
Definition foreign_objects (ns : string) (row : LockRow) (db : Db)
  : list (string * NsObject) :=
  filter (fun o => produced_by ns row o = false) (default [] (namespaces db !! ns)).

(** Modelled from the spec: dropping what the previous build of the
    namespace produced, and nothing else. *)
Definition drop_previous (ns : string) (prev : option LockRow) (db : Db) : Db :=
  match prev with
  | None => db
  | Some row =>
      {| namespace_lock := namespace_lock db;
         live := filter (fun t : string * list Row => t.1 ∉ live_names_of ns row) (live db);
         namespaces := <[ns := foreign_objects ns row db]> (namespaces db);
         ponder_cache := ponder_cache db |}
  end.

(** Modelled from the spec, step 5 of [setup]: the rows a fresh live
    table starts with are the cached finalized rows of the build when
    there are some. *)
Definition initial_rows (entry : option CacheEntry) (table : string) : list Row :=
  match entry with
  | Some e => default [] (Schema.prop table (cache_tables e))
  | None => []
  end.

(** Modelled from the spec, step 6 of [setup]: fresh live tables under
    their physical names, and a view for each under the table's name. *)
Definition create_tables (ns : string) (args : SetupArgs) (entry : option CacheEntry)
    (db : Db) : Db :=
  {| namespace_lock := namespace_lock db;
     live := live db
             ++ map (fun t => (live_name ns (buildId args) t, initial_rows entry t))
                  (table_names (schema args));
     namespaces :=
       <[ns := default [] (namespaces db !! ns)
               ++ map (fun t => (t, View (live_name ns (buildId args) t)))
                    (table_names (schema args))]> (namespaces db);
     ponder_cache := ponder_cache db |}.

Definition set_lock (ns : string) (row : LockRow) (db : Db) : Db :=
  {| namespace_lock := <[ns := row]> (namespace_lock db);
     live := live db;
     namespaces := namespaces db;
     ponder_cache := ponder_cache db |}.

(** Modelled from the spec: [setup({schema, buildId})], steps 1 to 6.  The
    whole call is one transaction: when it fails the database is as it
    was.  The name collision is the failure the test file expects when
    a table of the new build meets a name already taken. *)
Definition setup (inst : Instance) (now : Z) (args : SetupArgs) (db : Db)
  : result DbError (Checkpoint * Db) :=
  let ns := userNamespace inst in
  let prev := namespace_lock db !! ns in
  if negb (can_acquire now prev) then
    Throw (NamespaceLocked ns
             (match prev with
              | Some r => heartbeat_at r + leaseTtl - now
              | None => 0
              end))
  else
    let same :=
      match prev with
      | Some r =>
          if bool_decide (build_id r = buildId args ∧ schema_json r = schema args)
          then Some r else None
      | None => None
      end in
    match same with
    | Some r =>
        let row := {| is_locked := 1; heartbeat_at := now; build_id := buildId args;
                      finalized_checkpoint := finalized_checkpoint r;
                      schema_json := schema args |} in
        Ok (finalized_checkpoint r, set_lock ns row db)
    | None =>
        let db1 := drop_previous ns prev db in
        match
          filter (fun t => t ∈ getTableNames db1 ns) (table_names (schema args))
        with
        | t :: _ => Throw (TableNameCollision ns t)
        | [] =>
            let entry := ponder_cache db !! buildId args in
            let checkpoint :=
              match entry with
              | Some e => cache_checkpoint e
              | None => zeroCheckpoint
              end in
            let row := {| is_locked := 1; heartbeat_at := now; build_id := buildId args;
                          finalized_checkpoint := checkpoint;
                          schema_json := schema args |} in
            Ok (checkpoint, set_lock ns row (create_tables ns args entry db1))
        end
    end.

(** Modelled from the spec: the background heartbeat refreshes
    [heartbeat_at]. *)
Definition heartbeat (inst : Instance) (now : Z) (db : Db) : Db :=
  match namespace_lock db !! userNamespace inst with
  | Some r =>
      set_lock (userNamespace inst)
        {| is_locked := is_locked r; heartbeat_at := now; build_id := build_id r;
           finalized_checkpoint := finalized_checkpoint r;
           schema_json := schema_json r |} db
  | None => db
  end.

(** Modelled from the spec: promotion to the cache copies the rows at
    or below the finalized checkpoint, table by table. *)
Definition finalized_rows (ns : string) (r : LockRow) (db : Db) : list (string * list Row) :=
  map (fun t =>
         (t, filter (fun row => checkpoint_leb (row_checkpoint row) (finalized_checkpoint r) = true)
               (default [] (Schema.prop (live_name ns (build_id r) t) (live db)))))
      (table_names (schema_json r)).

(** Modelled from the spec: [kill()] releases the lock ([is_locked = 0])
    and flushes the cache. *)
Definition kill (inst : Instance) (db : Db) : Db :=
  let ns := userNamespace inst in
  match namespace_lock db !! ns with
  | Some r =>
      {| namespace_lock :=
           <[ns := {| is_locked := 0; heartbeat_at := heartbeat_at r;
                      build_id := build_id r;
                      finalized_checkpoint := finalized_checkpoint r;
                      schema_json := schema_json r |}]> (namespace_lock db);
         live := live db;
         namespaces := namespaces db;
         ponder_cache :=
           <[build_id r := {| cache_checkpoint := finalized_checkpoint r;
                              cache_tables := finalized_rows ns r db |}]> (ponder_cache db) |}
  | None => db
  end.

End Service.

(** The schemas of the test file. *)
Definition col (ty : string) : Schema.Column := Schema.column ty None None None.
Definition opt_col (ty : string) : Schema.Column := Schema.column ty None (Some true) None.

Definition test_schema : Schema.SchemaResult :=
  {| Schema.tables :=
       [ ("Pet", [ ("id", col "string"); ("name", col "string"); ("age", opt_col "int");
                   ("bigAge", opt_col "bigint"); ("kind", opt_col "enum:PetKind") ]);
         ("Person", [ ("id", col "string"); ("name", col "string") ]) ];
     Schema.enums := [ ("PetKind", ["CAT"; "DOG"]) ] |}.

Definition test_schemaTwo : Schema.SchemaResult :=
  {| Schema.tables :=
       [ ("Dog", [ ("id", col "string"); ("name", col "string"); ("age", opt_col "int");
                   ("bigAge", opt_col "bigint") ]);
         ("Apple", [ ("id", col "string"); ("name", col "string") ]) ];
     Schema.enums := [] |}.

(** [CREATE TABLE ns.name (id TEXT)], run from outside the service. *)
Definition create_external (ns name : string) (db : Db) : Db :=
  {| namespace_lock := namespace_lock db;
     live := live db;
     namespaces :=
       <[ns := default [] (namespaces db !! ns) ++ [(name, ExternalTable [("id", "TEXT")] [])]]>
         (namespaces db);
     ponder_cache := ponder_cache db |}.

(** A stand-in for [hash] and the database a call leaves behind, for
    running the scenarios of the test file. *)
Definition sample_hash (parts : list string) : string := String.concat "_" parts.

Definition db_after (r : result DbError (Checkpoint * Db)) : Db :=
  match r with
  | Ok (_, db) => db
  | Throw _ => empty_db
  end.

(** Instance A has set up the first schema as build [abc] at time 1000. *)
Definition db_A : Db :=
  db_after (setup sample_hash 60000 default_instance 1000
              {| schema := test_schema; buildId := "abc" |} empty_db).

(** Instance A was killed, and two tables were created from outside. *)
Definition db_foreign : Db :=
  create_external "public" "AnotherTable"
    (create_external "public" "not_a_ponder_table"
       (kill sample_hash default_instance db_A)).

Definition args_abc : SetupArgs := {| schema := test_schema; buildId := "abc" |}.
Definition args_def : SetupArgs := {| schema := test_schemaTwo; buildId := "def" |}.

End Database.

(** ** More of the string methods of the runtime *)

Module JsText.

(** [s.indexOf(c)] for a one-character needle: the first position, or -1. *)
Fixpoint indexOf (c : ascii) (s : string) : Z :=
  match s with
  | EmptyString => (-1)%Z
  | String a s' =>
      if Ascii.eqb a c then 0%Z
      else let i := indexOf c s' in
           if (i <? 0)%Z then (-1)%Z else (i + 1)%Z
  end.

(** [s.slice(0, end)]: a negative [end] counts from the end of the
    string, and the result never reaches past either end. *)
Definition slice0 (end_ : Z) (s : string) : string :=
  let len := Z.of_nat (String.length s) in
  let stop := if (end_ <? 0)%Z then Z.max (len + end_) 0 else Z.min end_ len in
  Js.slice_to (Z.to_nat stop) s.

(** [s.replace(/[0-9]+$/, "")]: the first position from which only
    digits follow, up to the end, starts the match that is removed. *)
Fixpoint trim_trailing_digits (s : string) : string :=
  match s with
  | EmptyString => EmptyString
  | String c s' =>
      if Js.all_chars Js.is_digit (String c s') then EmptyString
      else String c (trim_trailing_digits s')
  end.

(** All of the string but its last character. *)
Fixpoint drop_last (s : string) : string :=
  match s with
  | EmptyString => EmptyString
  | String c EmptyString => EmptyString
  | String c s' => String c (drop_last s')
  end.

Definition newline : string := String (ascii_of_nat 10) EmptyString.
Definition dquote : string := String (ascii_of_nat 34) EmptyString.

End JsText.

(** ** Handler type generation (tool/typegen, the second file of
    generateContextType.ts) *)

Module Typegen.

(** ethers' [ParamType], as far as the generator reads it: [components]
    is [null] unless the parameter is a tuple. *)
#[warnings="-register-all"]
Inductive ParamType :=
| mkParamType (name baseType : string) (components : option (list ParamType)).

Definition param_name (p : ParamType) : string :=
  match p with mkParamType n _ _ => n end.

Definition param_baseType (p : ParamType) : string :=
  match p with mkParamType _ b _ => b end.

Definition param_components (p : ParamType) : option (list ParamType) :=
  match p with mkParamType _ _ c => c end.

Definition valueTypeMap : list (string * string) :=
  [ ("bool", "boolean"); ("address", "string"); ("string", "string");
    ("int", "BigNumber"); ("uint", "BigNumber"); ("bytes", "Bytes") ].

(** [valueTypeMap[key]]: an own entry, or a member that the object literal
    inherits from [Object.prototype] (a function or an object, so truthy),
    or [undefined]. *)
Inductive Lookup :=
| Own (v : string)
| Inherited
| Missing.

Definition valueTypeMap_get (key : string) : Lookup :=
  match Schema.prop key valueTypeMap with
  | Some v => Own v
  | None =>
      if bool_decide (key ∈ Js.Object_prototype_keys) then Inherited else Missing
  end.

Section Generator.
(** How the engine prints an inherited member inside a template literal. *)
Variable inherited_text : string -> string.

(** The callback of [params.map] in [generateParamsType], together with
    the parameters it hands to [console.error], in call order. *)
Fixpoint child_type (param : ParamType) : string * list ParamType :=
  match param with
  | mkParamType name baseType (Some components) =>
      let rs := map child_type components in
      ((name ++ ": " ++ ("{ " ++ String.concat "" (rs.*1) ++ "}") ++ "; ")%string,
       concat (rs.*2))
  | mkParamType name baseType None =>
      let trimmedParamBaseType := JsText.trim_trailing_digits baseType in
      match valueTypeMap_get trimmedParamBaseType with
      | Own valueType => ((name ++ ": " ++ valueType ++ "; ")%string, [])
      | Inherited =>
          ((name ++ ": " ++ inherited_text trimmedParamBaseType ++ "; ")%string, [])
      | Missing => ((name ++ ": unknown; ")%string, [param])
      end
  end.

Definition generateParamsType (params : list ParamType) : string * list ParamType :=
  let rs := map child_type params in
  (("{ " ++ String.concat "" (rs.*1) ++ "}")%string, concat (rs.*2)).

Record EventHandlerType := {
  handler_name : string;
  typeString : string;
}.

(** [eventSignature.slice(0, eventSignature.indexOf("("))] *)
Definition event_name (eventSignature : string) : string :=
  JsText.slice0 (JsText.indexOf "(" eventSignature) eventSignature.

Definition generateEventHandlerType (eventSignature : string) (inputs : list ParamType)
  : EventHandlerType * list ParamType :=
  let eventName := event_name eventSignature in
  let '(parameterType, logged) := generateParamsType inputs in
  ({| handler_name := eventName;
      typeString :=
        (JsText.newline
         ++ "  export interface " ++ eventName ++ "Event extends LogDescription {"
         ++ JsText.newline
         ++ "    name: " ++ JsText.dquote ++ eventName ++ JsText.dquote ++ ";"
         ++ JsText.newline
         ++ "    params: " ++ parameterType ++ JsText.newline
         ++ "  }" ++ JsText.newline
         ++ "  export type " ++ eventName ++ "Handler = (event: " ++ eventName
         ++ "Event, context: Context) => void;" ++ JsText.newline
         ++ "  ")%string |},
   logged).

End Generator.

(** The leaves of a parameter list, tuples opened, in reading order. *)
Fixpoint param_leaves (param : ParamType) : list ParamType :=
  match param with
  | mkParamType _ _ (Some components) => concat (map param_leaves components)
  | mkParamType _ _ None => [param]
  end.

Definition unhandled (param : ParamType) : bool :=
  match valueTypeMap_get (JsText.trim_trailing_digits (param_baseType param)) with
  | Missing => true
  | _ => false
  end.

(** A sample event input: a transfer with a tuple and a fixed-point
    amount, which the map does not know. *)
Definition sample_inputs : list ParamType :=
  [ mkParamType "from" "address" None;
    mkParamType "amount" "uint256" None;
    mkParamType "meta"  "tuple"
      (Some [ mkParamType "tag" "bytes32" None;
              mkParamType "rate" "fixed128x18" None ]);
    mkParamType "ids" "array" None ].

End Typegen.

(** ** Samples and readings used by the properties below *)

Module Samples.

(** A schema that [Schema.schema] accepts: an enum, a table that uses it
    and refers to a second table. *)
Definition pet_table : Schema.Table :=
  [ ("id", Schema.column "string" None None None);
    ("kind", Schema.column "enum:Kind" None (Some true) None);
    ("owner", Schema.column "bigint" (Some "Person.id") None None) ].

Definition person_table : Schema.Table :=
  [ ("id", Schema.column "bigint" None None None);
    ("name", Schema.column "string" None None None) ].

Definition sample_schema : list (string * Schema.Entity) :=
  [ ("Kind", Schema.ITEnum ["CAT"; "DOG"]);
    ("Pet", Schema.ITTable pet_table);
    ("Person", Schema.ITTable person_table) ].

(** A table whose column refers to the table itself, and a table whose
    column refers to an enum. *)
Definition node_table : Schema.Table :=
  [ ("id", Schema.column "string" None None None);
    ("parent", Schema.column "string" (Some "Node.id") None None) ].

Definition self_reference_schema : list (string * Schema.Entity) :=
  [ ("Node", Schema.ITTable node_table) ].

Definition kinded_table : Schema.Table :=
  [ ("id", Schema.column "string" None None None);
    ("kind", Schema.column "string" (Some "Kind.id") None None) ].

Definition enum_reference_schema : list (string * Schema.Entity) :=
  [ ("Kind", Schema.ITEnum ["CAT"; "DOG"]);
    ("Pet", Schema.ITTable kinded_table) ].

(** The version test of [start], on what the environment reports. *)
Definition unsupported_node (env : Start.Env) : bool :=
  let '(major, minor) := Start.node_version env in
  Js.lt major (Some (Js.Num 18))
  || (Js.strict_eq major (Some (Js.Num 18)) && Js.lt minor (Some (Js.Num 14))).

(** The filters of the requests in a trace of [_eth_getLogs]. *)
Definition requests (trace : list SyncService.Event) : list SyncService.Filter :=
  omap (fun e => match e with
                 | SyncService.Request f => Some f
                 | SyncService.LoggerDebug _ _ => None
                 end) trace.

(** How far a filter of the sample node is from being answered. *)
Definition sample_measure (f : SyncService.Filter) : nat :=
  match SyncService.sample_request f with
  | Throw e => if String.eqb e "query returned more than 10000 results" then 1 else 0
  | Ok _ => 0
  end.

(** A helper that proposes a range the sample node refuses. *)
Definition stubborn_helper (f : SyncService.Filter) (e : string)
  : SyncService.GetLogsRetryHelperReturnType :=
  if String.eqb e "query returned more than 10000 results" then
    SyncService.ShouldRetry
      [ {| SyncService.fromBlock := "0x0"; SyncService.toBlock := "0x32" |};
        {| SyncService.fromBlock := "0x40"; SyncService.toBlock := "0x64" |} ]
  else SyncService.ShouldNotRetry.

(** A helper that asks for a retry and proposes nothing. *)
Definition empty_helper (f : SyncService.Filter) (e : string)
  : SyncService.GetLogsRetryHelperReturnType :=
  SyncService.ShouldRetry [].

Definition sample_log (blockHash logIndex : string) (topics : list string) : RpcLog.t :=
  {| RpcLog.address := "0x5FbDB2315678afecb367f032d93F642f64180aa3";
     RpcLog.blockHash := blockHash; RpcLog.blockNumber := "0x10";
     RpcLog.data := "0x"; RpcLog.logIndex := logIndex; RpcLog.topics := topics;
     RpcLog.transactionHash := "0xfeed"; RpcLog.transactionIndex := "0x1" |}.

(** The log with its topics replaced. *)
Definition with_topics (log : RpcLog.t) (topics : list string) : RpcLog.t :=
  {| RpcLog.address := RpcLog.address log;
     RpcLog.blockHash := RpcLog.blockHash log;
     RpcLog.blockNumber := RpcLog.blockNumber log;
     RpcLog.data := RpcLog.data log;
     RpcLog.logIndex := RpcLog.logIndex log;
     RpcLog.topics := topics;
     RpcLog.transactionHash := RpcLog.transactionHash log;
     RpcLog.transactionIndex := RpcLog.transactionIndex log |}.

(** The topic columns of a row, in order. *)
Definition topic_columns (row : InsertableLog.t) : list (option string) :=
  [ InsertableLog.topic0 row; InsertableLog.topic1 row;
    InsertableLog.topic2 row; InsertableLog.topic3 row ].

End Samples.

(** ** [JSON.stringify] on the logs of a receipt *)

Module Json.

(** [hay.includes(needle)] *)
Fixpoint includes (needle hay : string) : bool :=
  String.prefix needle hay
  || match hay with
     | EmptyString => false
     | String _ hay' => includes needle hay'
     end.

Definition hex_digit (n : nat) : string :=
  String (nth n [ "0"; "1"; "2"; "3"; "4"; "5"; "6"; "7"; "8"; "9";
                  "a"; "b"; "c"; "d"; "e"; "f" ]%char "0"%char) EmptyString.

(** One code unit inside a JSON string: the quote and the backslash are
    escaped, control characters are written by their short escape or as
    [\u00XX], everything else stands for itself. *)
Definition escape (c : ascii) : string :=
  let n := nat_of_ascii c in
  if (n =? 34)%nat then ("\" ++ JsText.dquote)%string
  else if (n =? 92)%nat then "\\"
  else if (n =? 8)%nat then "\b"
  else if (n =? 9)%nat then "\t"
  else if (n =? 10)%nat then "\n"
  else if (n =? 12)%nat then "\f"
  else if (n =? 13)%nat then "\r"
  else if (n <? 32)%nat then ("\u00" ++ hex_digit (n / 16) ++ hex_digit (n mod 16))%string
  else String c EmptyString.

Fixpoint escape_all (s : string) : string :=
  match s with
  | EmptyString => EmptyString
  | String c s' => (escape c ++ escape_all s')%string
  end.

(** [JSON.stringify(s)] for a string. *)
Definition quote (s : string) : string :=
  (JsText.dquote ++ escape_all s ++ JsText.dquote)%string.

Definition member (key value : string) : string := (quote key ++ ":" ++ value)%string.

(** [JSON.stringify] of one log, with the members the type declares, in
    the order of the declaration.  A node may send them in another order
    and may send more; the text of each member is the same. *)
Definition stringify_log (log : RpcLog.t) : string :=
  ("{" ++ String.concat ","
     [ member "address" (quote (RpcLog.address log));
       member "blockHash" (quote (RpcLog.blockHash log));
       member "blockNumber" (quote (RpcLog.blockNumber log));
       member "data" (quote (RpcLog.data log));
       member "logIndex" (quote (RpcLog.logIndex log));
       member "topics" ("[" ++ String.concat "," (map quote (RpcLog.topics log)) ++ "]");
       member "transactionHash" (quote (RpcLog.transactionHash log));
       member "transactionIndex" (quote (RpcLog.transactionIndex log)) ]
   ++ "}")%string.

(** [JSON.stringify(transactionReceipt.logs)] *)
Definition stringify_logs (logs : list RpcLog.t) : string :=
  ("[" ++ String.concat "," (map stringify_log logs) ++ "]")%string.

(** The text holds the address, and the address has a capital letter. *)
Definition checksummed_address_in (text address : string) : bool :=
  negb (Utils.is_lowercase address) && includes address text.

(** A receipt whose only log comes from a contract at a checksummed
    address. *)
Definition sample_receipt : RpcTransactionReceipt.t :=
  {| RpcTransactionReceipt.blockHash := "0xab12";
     RpcTransactionReceipt.blockNumber := "0x10";
     RpcTransactionReceipt.contractAddress := None;
     RpcTransactionReceipt.cumulativeGasUsed := "0x5208";
     RpcTransactionReceipt.effectiveGasPrice := "0x1";
     RpcTransactionReceipt.from := "0xF39Fd6e51aad88F6F4ce6aB8827279cffFb92266";
     RpcTransactionReceipt.gasUsed := "0x5208";
     RpcTransactionReceipt.logs :=
       [ Samples.sample_log "0xab12" "0x0" ["0xddf2"] ];
     RpcTransactionReceipt.logsBloom := "0x00";
     RpcTransactionReceipt.status := "0x1";
     RpcTransactionReceipt.to := Some "0x5FbDB2315678afecb367f032d93F642f64180aa3";
     RpcTransactionReceipt.transactionHash := "0xfeed";
     RpcTransactionReceipt.transactionIndex := "0x1";
     RpcTransactionReceipt.type := "0x2" |}.

End Json.

(** * Properties *)

(** ** Loops that may throw *)

Lemma forEach_ok_iff {E A} (f : A -> result E unit) (l : list A) :
  forEach f l = Ok tt <-> (forall x, x ∈ l -> f x = Ok tt).
Proof.
  induction l as [|a l IH]; simpl.
  - split; [intros _ x Hx; inversion Hx | reflexivity].
  - split.
    + intros H x Hx. destruct (f a) as [[]|e] eqn:Ha; simpl in H; [|discriminate].
      apply elem_of_cons in Hx as [->|Hx]; [exact Ha|].
      apply IH; assumption.
    + intros H. rewrite (H a) by apply list_elem_of_here. simpl.
      apply IH. intros x Hx. apply H. by apply list_elem_of_further.
Qed.

Lemma forEach_throws {E A} (f : A -> result E unit) (l : list A) (x : A) :
  x ∈ l -> is_ok (f x) = false -> is_ok (forEach f l) = false.
Proof.
  induction l as [|a l IH]; intros Hx Hf.
  - inversion Hx.
  - simpl. apply elem_of_cons in Hx as [->|Hx].
    + destruct (f a); [discriminate | reflexivity].
    + destruct (f a) as [[]|]; simpl; [apply IH; assumption | reflexivity].
Qed.


(** ** The schema validator *)

Section SchemaProperties.
Import Js Schema.

Lemma all_chars_impl (p q : ascii -> bool) (s : string) :
  (forall c, p c = true -> q c = true) ->
  all_chars p s = true -> all_chars q s = true.
Proof.
  intros Hpq. induction s as [|c s IH]; simpl; [reflexivity|].
  intros [Hc Hs]%andb_true_iff. rewrite (Hpq c Hc), (IH Hs). reflexivity.
Qed.

(** What the validator accepts is what its regular expression matches. *)
Lemma validateTableOrColumnName_ok_iff (key : string) :
  validateTableOrColumnName key = Ok tt <-> name_regex_test key = true.
Proof.
  unfold validateTableOrColumnName, name_regex_test.
  destruct (String.eqb key "") eqn:He; simpl.
  - split; discriminate.
  - destruct (all_chars name_class key); simpl; split; congruence.
Qed.

(** The character class is the alphanumerics and the bar. *)
Lemma name_class_spec (c : ascii) :
  name_class c = is_alnum c || Ascii.eqb c "|".
Proof.
  unfold name_class, is_alnum.
  destruct (is_lower c), (is_upper c), (is_digit c), (Ascii.eqb c "|"); reflexivity.
Qed.

(** Every name the specification allows is accepted. *)
Lemma spec_name_accepted (key : string) :
  spec_name_ok key = true -> validateTableOrColumnName key = Ok tt.
Proof.
  intros [Hne Hall]%andb_true_iff. apply validateTableOrColumnName_ok_iff.
  unfold name_regex_test. rewrite Hne. simpl.
  apply (all_chars_impl is_alnum); [|exact Hall].
  intros c Hc. rewrite name_class_spec, Hc. reflexivity.
Qed.

(** A table name the regular expression refuses makes [schema] throw,
    wherever the entry stands. *)
Lemma schema_throws_on_table_name (schema_obj : list (string * Entity))
    (name : string) (e : Entity) :
  (name, e) ∈ schema_obj ->
  name_regex_test name = false ->
  is_ok (schema schema_obj) = false.
Proof.
  intros Hin Hbad. unfold schema.
  assert (Hf : is_ok (forEach (validate_entity schema_obj) schema_obj) = false).
  { apply (forEach_throws _ _ (name, e) Hin). simpl.
    destruct (validateTableOrColumnName name) as [[]|] eqn:Hv; [|reflexivity].
    apply validateTableOrColumnName_ok_iff in Hv. congruence. }
  destruct (forEach (validate_entity schema_obj) schema_obj); [discriminate | reflexivity].
Qed.

(** So does a column name, other than [id], that it refuses. *)
Lemma schema_throws_on_column_name (schema_obj : list (string * Entity))
    (tableName : string) (table : Table) (columnName : string) (c : Column) :
  (tableName, ITTable table) ∈ schema_obj ->
  (columnName, c) ∈ table ->
  columnName <> "id" ->
  name_regex_test columnName = false ->
  is_ok (schema schema_obj) = false.
Proof.
  intros Hin Hcol Hid Hbad. unfold schema.
  assert (Hf : is_ok (forEach (validate_entity schema_obj) schema_obj) = false).
  { apply (forEach_throws _ _ (tableName, ITTable table) Hin). simpl.
    destruct (validateTableOrColumnName tableName) as [[]|]; [|reflexivity]. simpl.
    unfold validate_table.
    destruct (prop "id" table) as [id|]; [|reflexivity].
    destruct (negb (is_id_type (type id))); [reflexivity|].
    destruct (optional id); [reflexivity|].
    destruct (isList id); [reflexivity|].
    destruct (truthy (references id)); [reflexivity|].
    apply (forEach_throws _ _ (columnName, c) Hcol). simpl.
    destruct (String.eqb_spec columnName "id") as [->|_]; [congruence|].
    destruct (validateTableOrColumnName columnName) as [[]|] eqn:Hv; [|reflexivity].
    apply validateTableOrColumnName_ok_iff in Hv. congruence. }
  destruct (forEach (validate_entity schema_obj) schema_obj); [discriminate | reflexivity].
Qed.

(** [add] fills the internal slot only: what [in] sees stays the same. *)
Lemma prop_in_Set_add (key v : string) (set : JsSet) :
  prop_in key (Set_add v set) = prop_in key set.
Proof. reflexivity. Qed.

(** The enum loop looks at property names, never at the values added:
    it succeeds exactly when no value names a property of a [Set]. *)
Lemma enum_loop_ok_iff (set : JsSet) (values : list string) :
  enum_loop set values = Ok tt <->
  Forall (fun v => v ∉ Set_prototype_keys ++ Object_prototype_keys) values.
Proof.
  revert set. induction values as [|v values IH]; intros set; simpl.
  - split; [constructor | reflexivity].
  - unfold prop_in. case_bool_decide as Hv.
    + split; [discriminate|]. intros HF. apply Forall_cons in HF as [Hn _]. contradiction.
    + rewrite IH. split; [intros HF; constructor; assumption|].
      intros HF. apply Forall_cons in HF as [_ HF]. exact HF.
Qed.

(** The set that the loop threads has no influence on it. *)
Lemma enum_loop_set_irrelevant (s1 s2 : JsSet) (values : list string) :
  enum_loop s1 values = enum_loop s2 values.
Proof.
  revert s1 s2. induction values as [|v values IH]; intros s1 s2; simpl; [reflexivity|].
  unfold prop_in. case_bool_decide; [reflexivity | apply IH].
Qed.

(** A value given twice passes as long as it names no property. *)
Lemma enum_loop_accepts_repeated_value (v : string) (values : list string) :
  enum_loop new_Set (v :: values) = Ok tt ->
  enum_loop new_Set (v :: v :: values) = Ok tt.
Proof.
  rewrite !enum_loop_ok_iff. intros HF. constructor; [|exact HF].
  apply Forall_cons in HF as [Hv _]. exact Hv.
Qed.

(** C6, at the failing input: a table name and a column name that hold
    the bar character, which the specification's pattern for names
    (one or more of A-Z, a-z, 0-9) excludes, pass the validator, and
    [schema] returns the tables instead of throwing. *)
Theorem schema_accepts_bar_in_names :
  spec_name_ok "a|b" = false /\ spec_name_ok "x|y" = false /\
  validateTableOrColumnName "a|b" = Ok tt /\
  schema [("a|b", ITTable [("id", column "string" None None None);
                           ("x|y", column "string" None None None)])]
  = Ok {| tables := [("a|b", [("id", column "string" None None None);
                              ("x|y", column "string" None None None)])];
          enums := [] |}.
Proof. repeat split. Qed.

(** C7, at the failing input: an enum that lists the same value twice is
    not a set of unique members, yet [schema] accepts it and returns it;
    and an enum of two different values is refused as a duplicate when
    one of them names a method of [Set]. *)
Theorem schema_accepts_duplicate_enum_values :
  spec_enum_ok ["CAT"; "CAT"] = false /\
  schema [("PetKind", ITEnum ["CAT"; "CAT"])]
  = Ok {| tables := []; enums := [("PetKind", ["CAT"; "CAT"])] |} /\
  spec_enum_ok ["add"; "remove"] = true /\
  schema [("Action", ITEnum ["add"; "remove"])] = Throw DuplicateEnumValuesError.
Proof. repeat split. Qed.

End SchemaProperties.

(** ** The [start] command *)

Section StartProperties.
Import Js Start.

(** The decimal text of a natural, as a template literal prints it. *)
Local Abbreviation dec n := (to_string (Some (Num n))).

Lemma string_of_uint_digits (d : Decimal.uint) :
  all_chars is_digit (DecimalString.NilEmpty.string_of_uint d) = true.
Proof. induction d; simpl; auto. Qed.

Lemma digit_is_not_dot (c : ascii) :
  is_digit c = true -> negb (Ascii.eqb c ".") = true.
Proof.
  intros Hd. destruct (Ascii.eqb_spec c ".") as [->|_]; [discriminate | reflexivity].
Qed.

Lemma digits_no_hex_prefix (s : string) :
  all_chars is_digit s = true -> has_hex_prefix s = false.
Proof.
  destruct s as [|c1 [|c2 s]]; simpl; try reflexivity.
  intros [_ [H2 _]%andb_true_iff]%andb_true_iff.
  destruct (Ascii.eqb_spec c2 "x") as [->|_]; [discriminate|].
  destruct (Ascii.eqb_spec c2 "X") as [->|_]; [discriminate|].
  apply andb_false_r.
Qed.

(** [Number] reads back what a template literal prints. *)
Lemma Number_to_string (n : N) : Number (dec n) = Num n.
Proof.
  unfold Number, to_string.
  rewrite digits_no_hex_prefix by apply string_of_uint_digits.
  rewrite DecimalString.NilEmpty.usu, DecimalN.Unsigned.of_to. reflexivity.
Qed.

Lemma split_app_sep (sep : ascii) (s rest : string) :
  all_chars (fun c => negb (Ascii.eqb c sep)) s = true ->
  split sep (s ++ String sep rest) = s :: split sep rest.
Proof.
  induction s as [|c s IH]; simpl.
  - intros _. rewrite Ascii.eqb_refl. reflexivity.
  - intros [Hc Hs]%andb_true_iff. apply negb_true_iff in Hc. rewrite Hc.
    rewrite (IH Hs). reflexivity.
Qed.

Lemma split_nonempty (sep : ascii) (s : string) : split sep s <> [].
Proof.
  destruct s as [|c s]; simpl; [discriminate|].
  destruct (Ascii.eqb c sep); [discriminate|].
  destruct (split sep s); discriminate.
Qed.

(** A release string [major.minor.patch] parses to its numbers. *)
Lemma node_version_of_release (major minor : N) (patch config : string)
    (result : BuildResult) :
  node_version {| process_versions_node := dec major ++ "." ++ dec minor ++ "." ++ patch;
                  configRelPath := config; initialResult := result |}
  = (Some (Num major), Some (Num minor)).
Proof.
  unfold node_version. cbn [process_versions_node].
  assert (Hnd : forall n, all_chars (fun c => negb (Ascii.eqb c ".")) (dec n) = true).
  { intros n. apply (all_chars_impl is_digit); [apply digit_is_not_dot|].
    apply string_of_uint_digits. }
  change (dec major ++ "." ++ dec minor ++ "." ++ patch)%string
    with (dec major ++ String "." (dec minor ++ String "." patch))%string.
  rewrite !split_app_sep by apply Hnd.
  cbn [map lookup list_lookup]. rewrite !Number_to_string. reflexivity.
Qed.

(** The version test of [start], on numbers. *)
Lemma version_test_true (major minor : N) :
  (major < 18 \/ (major = 18 /\ minor < 14))%N ->
  Js.lt (Some (Num major)) (Some (Num 18))
  || (strict_eq (Some (Num major)) (Some (Num 18))
      && Js.lt (Some (Num minor)) (Some (Num 14))) = true.
Proof.
  simpl. intros [H|[-> H]].
  - apply N.ltb_lt in H. rewrite H. reflexivity.
  - apply N.ltb_lt in H. rewrite H. reflexivity.
Qed.

Lemma version_test_false (major minor : N) :
  ~ (major < 18 \/ (major = 18 /\ minor < 14))%N ->
  Js.lt (Some (Num major)) (Some (Num 18))
  || (strict_eq (Some (Num major)) (Some (Num 18))
      && Js.lt (Some (Num minor)) (Some (Num 14))) = false.
Proof.
  simpl. intros H.
  destruct (N.ltb_spec major 18) as [Hl|Hl]; [exfalso; auto|]. simpl.
  destruct (N.eqb_spec major 18) as [->|Hn]; [|reflexivity]. simpl.
  destruct (N.ltb_spec minor 14) as [Hm|Hm]; [exfalso; auto | reflexivity].
Qed.

(** C10: on a Node.js release below 18.14, [start] builds its options
    and its logger, logs the fatal error, stops the logger and exits the
    process with code 1; the build service is never created and nothing
    else is done. *)
Theorem start_exits_on_unsupported_node (major minor : N) (patch config : string)
    (result : BuildResult) :
  (major < 18 \/ (major = 18 /\ minor < 14))%N ->
  start {| process_versions_node := dec major ++ "." ++ dec minor ++ "." ++ patch;
           configRelPath := config; initialResult := result |}
  = ([ BuildOptions; NewLoggerService;
       LoggerFatal "process"
         ("Invalid Node.js version. Expected >=18.14, detected "
          ++ dec major ++ "." ++ dec minor ++ ".");
       LoggerKill; ProcessExit 1 ],
     Exited 1).
Proof.
  intros Hlow. unfold start.
  rewrite node_version_of_release, (version_test_true _ _ Hlow).
  reflexivity.
Qed.

Lemma start_exits_on_unsupported_node_witness :
  start {| process_versions_node := "16.20.2";
           configRelPath := "ponder.config.ts"; initialResult := StatusSuccess |}
  = ([ BuildOptions; NewLoggerService;
       LoggerFatal "process" "Invalid Node.js version. Expected >=18.14, detected 16.20.";
       LoggerKill; ProcessExit 1 ],
     Exited 1).
Proof.
  apply (start_exits_on_unsupported_node 16 20 "2" "ponder.config.ts" StatusSuccess).
  left. reflexivity.
Defined.

(** From 18.14 on, [start] goes on to create the build service. *)
Lemma start_continues_on_supported_node (major minor : N) (patch config : string)
    (result : BuildResult) :
  ~ (major < 18 \/ (major = 18 /\ minor < 14))%N ->
  exists rest,
    start {| process_versions_node := dec major ++ "." ++ dec minor ++ "." ++ patch;
             configRelPath := config; initialResult := result |}
    = ([ BuildOptions; NewLoggerService;
         LoggerDebug "app" ("Started using config file: " ++ config);
         NewMetricsService; CreateTelemetry; CreateBuildService; SetupShutdown;
         BuildServiceStart false; BuildServiceKill ] ++ rest,
       Returned tt).
Proof.
  intros Hok. unfold start.
  rewrite node_version_of_release, (version_test_false _ _ Hok).
  destruct result; eexists; reflexivity.
Qed.

(** Whatever the environment, [start] never asks for a shutdown with the
    reason the specification lists for a failed first build. *)
Lemma start_never_says_failed_initial_build (env : Env) :
  ~ In (Shutdown spec_failed_build_reason 1) (start env).1.
Proof.
  unfold start. destruct (node_version env) as [major minor].
  destruct (_ || _); [|destruct (initialResult env)];
    simpl; intros H; repeat (destruct H as [H|H]; [discriminate H|]); exact H.
Qed.

(** C8, at the failing input: when the first build fails on a supported
    runtime, [start] asks for a shutdown with code 1 and never runs the
    indexing engine, but the reason it gives is misspelt: it is not the
    reason string of the specification. *)
Theorem start_failed_build_reason_misspelt :
  start {| process_versions_node := "18.14.0";
           configRelPath := "ponder.config.ts"; initialResult := StatusError |}
  = ([ BuildOptions; NewLoggerService;
       LoggerDebug "app" "Started using config file: ponder.config.ts";
       NewMetricsService; CreateTelemetry; CreateBuildService; SetupShutdown;
       BuildServiceStart false; BuildServiceKill;
       Shutdown "Failed intial build" 1 ],
     Returned tt)
  /\ "Failed intial build" <> spec_failed_build_reason.
Proof. split; [reflexivity | discriminate]. Qed.

End StartProperties.

(** ** Lowercasing *)

Section LowercaseProperties.
Import Js Utils.

Lemma lower_char_not_upper (c : ascii) : is_upper (lower_char c) = false.
Proof. destruct c as [[] [] [] [] [] [] [] []]; reflexivity. Qed.

Lemma lower_char_idem (c : ascii) : lower_char (lower_char c) = lower_char c.
Proof.
  unfold lower_char at 1. rewrite lower_char_not_upper. reflexivity.
Qed.

(** The result of [toLowerCase] holds no capital letter. *)
Lemma toLowerCase_is_lowercase (s : string) : is_lowercase (toLowerCase s) = true.
Proof.
  unfold is_lowercase, toLowerCase.
  induction s as [|c s IH]; simpl; [reflexivity|].
  rewrite lower_char_not_upper, IH. reflexivity.
Qed.

Lemma toLowerCase_idem (s : string) : toLowerCase (toLowerCase s) = toLowerCase s.
Proof.
  unfold toLowerCase. induction s as [|c s IH]; simpl; [reflexivity|].
  rewrite lower_char_idem, IH. reflexivity.
Qed.

(** A string that is already lowercase is left as it is. *)
Lemma toLowerCase_fixes_lowercase (s : string) :
  is_lowercase s = true -> toLowerCase s = s.
Proof.
  unfold is_lowercase, toLowerCase.
  induction s as [|c s IH]; simpl; [reflexivity|].
  intros [Hc Hs]%andb_true_iff. rewrite (IH Hs).
  unfold lower_char. apply negb_true_iff in Hc. rewrite Hc. reflexivity.
Qed.

Lemma toLowerCase_truthy (s : string) :
  truthy (Some (toLowerCase s)) = truthy (Some s).
Proof. destruct s; reflexivity. Qed.

End LowercaseProperties.

(** ** The sync-store row encoders *)

Section EncodingProperties.
Import Utils Encoding.

Variable encodeAsText : string -> string.
Variable hexToNumber : string -> Js.number.
Variable AccessList : Type.
Variable JSON_stringify_accessList : AccessList -> string.
Variable JSON_stringify_logs : list RpcLog.t -> string.

Lemma if_truthy_lowercase (x : option string) :
  Forall (fun a => is_lowercase a = true) (option_list (if_truthy toLowerCase x)).
Proof.
  destruct x as [s|]; unfold if_truthy; [|constructor].
  destruct (Js.truthy (Some s)); [|constructor].
  constructor; [apply toLowerCase_is_lowercase | constructor].
Qed.

(** An address that is present and not empty is written lowercased; an
    absent one is written as [null]. *)
Lemma if_truthy_toLowerCase_Some (x : option string) (a : string) :
  if_truthy toLowerCase x = Some a ->
  exists s, x = Some s /\ a = toLowerCase s.
Proof.
  destruct x as [s|]; unfold if_truthy; [|discriminate].
  destruct (Js.truthy (Some s)); [|discriminate].
  intros [= <-]. exists s. split; reflexivity.
Qed.

(** C9, as amended: the encoders write every column that is an address
    through [toLowerCase]: the block's [miner], the transaction's [from]
    and [to], the receipt's [contractAddress], [from] and [to], and the
    log's [address]; [to] and [contractAddress] are lowercased when they
    are present and not empty, and [null] otherwise.  So none of these
    columns holds a capital letter.  The columns that are JSON text, the
    receipt's [logs] and the transaction's [accessList], are the
    stringified input as it came. *)
Theorem rpcToSqlite_address_columns_lowercased
    (block : RpcBlock.t) (transaction : RpcTransaction.t AccessList)
    (transactionReceipt : RpcTransactionReceipt.t) (log : RpcLog.t) :
  let b := rpcToSqliteBlock encodeAsText block in
  let t := rpcToSqliteTransaction encodeAsText hexToNumber AccessList
             JSON_stringify_accessList transaction in
  let r := rpcToSqliteTransactionReceipt encodeAsText JSON_stringify_logs
             transactionReceipt in
  let l := rpcToSqliteLog encodeAsText log in
  (InsertableBlock.miner b = toLowerCase (RpcBlock.miner block)
   /\ InsertableTransaction.from t = toLowerCase (RpcTransaction.from transaction)
   /\ InsertableTransaction.to t
      = match RpcTransaction.to transaction with
        | Some a => if String.eqb a "" then None else Some (toLowerCase a)
        | None => None
        end
   /\ TransactionReceiptsRow.contractAddress r
      = match RpcTransactionReceipt.contractAddress transactionReceipt with
        | Some a => if String.eqb a "" then None else Some (toLowerCase a)
        | None => None
        end
   /\ TransactionReceiptsRow.from r
      = toLowerCase (RpcTransactionReceipt.from transactionReceipt)
   /\ TransactionReceiptsRow.to r
      = match RpcTransactionReceipt.to transactionReceipt with
        | Some a => if String.eqb a "" then None else Some (toLowerCase a)
        | None => None
        end
   /\ InsertableLog.address l = toLowerCase (RpcLog.address log))
  /\ Forall (fun a => is_lowercase a = true)
       (block_addresses b ++ transaction_addresses t
        ++ receipt_addresses r ++ log_addresses l)
  /\ TransactionReceiptsRow.logs r
     = JSON_stringify_logs (RpcTransactionReceipt.logs transactionReceipt)
  /\ InsertableTransaction.accessList t
     = JSON_stringify_accessList <$> RpcTransaction.accessList transaction.
Proof.
  intros b t r l.
  assert (Hopt : forall x : option string,
             if_truthy toLowerCase x
             = match x with
               | Some a => if String.eqb a "" then None else Some (toLowerCase a)
               | None => None
               end).
  { intros [a|]; [|reflexivity]. unfold if_truthy, Js.truthy.
    destruct (String.eqb a ""); reflexivity. }
  split; [|split; [|split; reflexivity]].
  - subst b t r l. cbn [rpcToSqliteBlock rpcToSqliteTransaction
      rpcToSqliteTransactionReceipt rpcToSqliteLog
      InsertableBlock.miner InsertableTransaction.from InsertableTransaction.to
      TransactionReceiptsRow.contractAddress TransactionReceiptsRow.from
      TransactionReceiptsRow.to InsertableLog.address].
    rewrite <- !Hopt. repeat split.
  - unfold block_addresses, transaction_addresses, receipt_addresses, log_addresses.
    subst b t r l. cbn [rpcToSqliteBlock rpcToSqliteTransaction
      rpcToSqliteTransactionReceipt rpcToSqliteLog
      InsertableBlock.miner InsertableTransaction.from InsertableTransaction.to
      TransactionReceiptsRow.contractAddress TransactionReceiptsRow.from
      TransactionReceiptsRow.to InsertableLog.address].
    repeat first
      [ apply Forall_app; split
      | apply Forall_cons; split; [apply toLowerCase_is_lowercase|]
      | apply if_truthy_lowercase
      | apply Forall_nil_2 ].
Qed.

End EncodingProperties.

(** A checksummed address of a log comes out in lowercase. *)
Example rpcToSqliteLog_checksummed_address :
  InsertableLog.address
    (Encoding.rpcToSqliteLog (fun x => x)
       {| RpcLog.address := "0x5FbDB2315678afecb367f032d93F642f64180aa3";
          RpcLog.blockHash := "0x01"; RpcLog.blockNumber := "0x1"; RpcLog.data := "0x";
          RpcLog.logIndex := "0x0"; RpcLog.topics := [];
          RpcLog.transactionHash := "0x02"; RpcLog.transactionIndex := "0x0" |})
  = "0x5fbdb2315678afecb367f032d93f642f64180aa3".
Proof. reflexivity. Qed.

(** C9 as it is stated fails: the row of a receipt holds the addresses
    of the receipt's logs inside its [logs] column, exactly as the node
    sent them.  Here the log's address is checksummed and the row holds
    it with its capital letters, while the receipt's own [from] and [to]
    are lowercased. *)
Lemma receipt_row_holds_checksummed_log_address :
  let row := Encoding.rpcToSqliteTransactionReceipt (fun x => x) Json.stringify_logs
               Json.sample_receipt in
  Json.checksummed_address_in (TransactionReceiptsRow.logs row)
    "0x5FbDB2315678afecb367f032d93F642f64180aa3" = true
  /\ TransactionReceiptsRow.to row = Some "0x5fbdb2315678afecb367f032d93f642f64180aa3"
  /\ TransactionReceiptsRow.from row = "0xf39fd6e51aad88f6f4ce6ab8827279cfffb92266".
Proof. vm_compute. repeat split. Qed.

(** ** The [eth_getLogs] helper *)

Section GetLogsProperties.
Import Utils SyncService.

Variable SyncLog : Type.
Variable RpcError : Type.
Variable numberToHex : N -> string.
Variable request : Filter -> result RpcError (list SyncLog).
Variable getLogsRetryHelper : Filter -> RpcError -> GetLogsRetryHelperReturnType.

Local Abbreviation getLogs :=
  (_eth_getLogs SyncLog RpcError numberToHex request getLogsRetryHelper).
Local Abbreviation filter_of := (request_filter numberToHex).

Lemma lower_address_idem (a : option AddressParam) :
  lower_address (lower_address a) = lower_address a.
Proof.
  destruct a as [[s|l]|]; cbn [lower_address]; [| |reflexivity].
  - destruct (Js.truthy (Some s)) eqn:Ht; [|reflexivity].
    cbn [lower_address]. rewrite toLowerCase_truthy, Ht, toLowerCase_idem. reflexivity.
  - do 2 f_equal. rewrite <- list_fmap_compose. apply list_fmap_ext.
    intros _ x _. apply toLowerCase_idem.
Qed.

(** The recursive call for a range sends that range with the topics and
    the (lowercased) address of the request that failed. *)
Lemma sub_params_filter (params : Params) (fb tb : BlockRef) (r : Range) :
  selector params = ByRange fb tb ->
  filter_of (sub_params (filter_of params) r)
  = RangeFilter (fromBlock r) (toBlock r)
      (topics params) (lower_address (address params)).
Proof.
  intros Hsel. unfold request_filter. rewrite Hsel. cbn.
  rewrite lower_address_idem. reflexivity.
Qed.

Lemma getLogs_unfold (fuel : nat) (params : Params) :
  getLogs (S fuel) params =
  match selector params with
  | ByHash _ => Some ([Request (filter_of params)], request (filter_of params))
  | ByRange _ _ =>
      match request (filter_of params) with
      | Ok l => Some ([Request (filter_of params)], Ok l)
      | Throw err =>
          match getLogsRetryHelper (filter_of params) err with
          | ShouldNotRetry => Some ([Request (filter_of params)], Throw err)
          | ShouldRetry ranges =>
              match mapM (fun r => getLogs fuel (sub_params (filter_of params) r)) ranges with
              | None => None
              | Some outs =>
                  Some (Request (filter_of params) :: LoggerDebug "historical" ranges
                          :: concat (outs.*1),
                        rbind (promise_all (outs.*2)) (fun l => Ok (concat l)))
              end
          end
      end
  end.
Proof.
  unfold request_filter. cbn [_eth_getLogs].
  destruct (selector params); reflexivity.
Qed.

(** Every call that returns has first sent its own request. *)
Lemma getLogs_first_request (fuel : nat) (params : Params)
    (out : list Event * result RpcError (list SyncLog)) :
  getLogs fuel params = Some out ->
  exists rest, out.1 = Request (filter_of params) :: rest.
Proof.
  destruct fuel as [|fuel]; [discriminate|].
  rewrite getLogs_unfold.
  destruct (selector params).
  - destruct (request (filter_of params)) as [l|err].
    + intros [= <-]. eexists. reflexivity.
    + destruct (getLogsRetryHelper (filter_of params) err).
      * destruct (mapM _ ranges); [|discriminate].
        intros [= <-]. eexists. reflexivity.
      * intros [= <-]. eexists. reflexivity.
  - intros [= <-]. eexists. reflexivity.
Qed.

(** More fuel never changes an answer. *)
Lemma getLogs_fuel_S (fuel : nat) :
  forall params out, getLogs fuel params = Some out -> getLogs (S fuel) params = Some out.
Proof.
  induction fuel as [|fuel IH]; intros params out; [discriminate|].
  rewrite (getLogs_unfold (S fuel)), (getLogs_unfold fuel).
  destruct (selector params); [|trivial].
  destruct (request (filter_of params)) as [l|err]; [trivial|].
  destruct (getLogsRetryHelper (filter_of params) err) as [ranges|]; [|trivial].
  destruct (mapM (fun r => getLogs fuel _) ranges) as [outs|] eqn:HM; [|discriminate].
  intros Hout.
  assert (HM' : mapM (fun r => getLogs (S fuel) (sub_params (filter_of params) r)) ranges
                = Some outs).
  { apply mapM_Some. apply mapM_Some in HM.
    eapply Forall2_impl; [exact HM|]. intros r o Hr. apply IH, Hr. }
  rewrite HM'. exact Hout.
Qed.

Lemma getLogs_fuel_le (n m : nat) (params : Params)
    (out : list Event * result RpcError (list SyncLog)) :
  n <= m -> getLogs n params = Some out -> getLogs m params = Some out.
Proof.
  induction 1 as [|m _ IH]; [trivial|]. intros H. apply getLogs_fuel_S, IH, H.
Qed.

Lemma promise_all_Ok {E A} (l : list A) :
  promise_all (map (@Ok E A) l) = Ok l.
Proof. induction l as [|a l IH]; simpl; [reflexivity|]. rewrite IH. reflexivity. Qed.

(** One rejection among the promises rejects the whole. *)
Lemma promise_all_Throw {E A} (l : list (result E A)) :
  is_ok (promise_all l) = false <-> Exists (fun r => is_ok r = false) l.
Proof.
  induction l as [|[a|e] l IH]; simpl.
  - split; [discriminate | intros H; inversion H].
  - rewrite Exists_cons, <- IH.
    destruct (promise_all l); simpl; split; auto. intros [H|H]; auto.
  - rewrite Exists_cons. split; auto.
Qed.

(** Sub-calls that each return with some fuel all return with one fuel. *)
Lemma sub_calls_common_fuel (f : Filter) (ranges : list Range)
    (outs : list (list Event * list SyncLog)) :
  Forall2 (fun r o => exists n, getLogs n (sub_params f r) = Some (o.1, Ok o.2))
    ranges outs ->
  exists n, Forall2 (fun r o => getLogs n (sub_params f r) = Some (o.1, Ok o.2))
              ranges outs.
Proof.
  induction 1 as [|r o ranges outs [n Hn] _ [m Hm]].
  - exists 0%nat. constructor.
  - exists (n `max` m)%nat. constructor.
    + apply (getLogs_fuel_le n); [lia | exact Hn].
    + eapply Forall2_impl; [exact Hm|]. intros r' o' H'.
      apply (getLogs_fuel_le m); [lia | exact H'].
Qed.

(** C5: when the request for a block range fails, [_eth_getLogs] asks the
    retry helper.  If the helper says not to retry, the call rejects with
    the error of the request.  If it proposes ranges, the call issues one
    recursive call per range, each asking the node for that range with
    the topics and the address of the failed request; once they have all
    returned their logs, it returns those logs concatenated in the order
    of the ranges. *)
Theorem eth_getLogs_splits_failed_range (params : Params) (fb tb : BlockRef)
    (err : RpcError) :
  selector params = ByRange fb tb ->
  request (filter_of params) = Throw err ->
  (getLogsRetryHelper (filter_of params) err = ShouldNotRetry ->
   forall fuel, getLogs (S fuel) params = Some ([Request (filter_of params)], Throw err))
  /\
  (forall ranges (outs : list (list Event * list SyncLog)),
     getLogsRetryHelper (filter_of params) err = ShouldRetry ranges ->
     Forall2 (fun r o =>
                exists n, getLogs n (sub_params (filter_of params) r) = Some (o.1, Ok o.2))
       ranges outs ->
     Forall2 (fun r o =>
                exists rest,
                  o.1 = Request (RangeFilter (fromBlock r) (toBlock r)
                                   (topics params) (lower_address (address params)))
                        :: rest)
       ranges outs
     /\ exists n, forall fuel, (n <= fuel)%nat ->
          getLogs fuel params
          = Some (Request (filter_of params) :: LoggerDebug "historical" ranges
                    :: concat (outs.*1),
                  Ok (concat (outs.*2)))).
Proof.
  intros Hsel Hreq. split.
  - intros Hno fuel. rewrite getLogs_unfold, Hsel, Hreq, Hno. reflexivity.
  - intros ranges outs Hretry Hsub. split.
    + eapply Forall2_impl; [exact Hsub|]. intros r o [n Hn].
      destruct (getLogs_first_request _ _ _ Hn) as [rest Hrest].
      exists rest. rewrite <- (sub_params_filter params fb tb r Hsel). exact Hrest.
    + destruct (sub_calls_common_fuel _ _ _ Hsub) as [n Hn].
      exists (S n). intros [|fuel] Hle; [lia|].
      rewrite getLogs_unfold, Hsel, Hreq, Hretry.
      assert (HM : mapM (fun r => getLogs fuel (sub_params (filter_of params) r)) ranges
                   = Some (map (fun o : list Event * list SyncLog => (o.1, Ok o.2)) outs)).
      { apply mapM_Some. apply Forall2_fmap_r.
        eapply Forall2_impl; [exact Hn|]. intros r o Hr.
        apply (getLogs_fuel_le n); [lia | exact Hr]. }
      rewrite HM.
      replace ((map (fun o : list Event * list SyncLog => (o.1, Ok o.2)) outs).*1)
        with (outs.*1)
        by (rewrite <- list_fmap_compose; apply list_fmap_ext; reflexivity).
      replace ((map (fun o : list Event * list SyncLog =>
                       (o.1, @Ok RpcError (list SyncLog) o.2)) outs).*2)
        with (map (@Ok RpcError (list SyncLog)) (outs.*2))
        by (rewrite <- !list_fmap_compose; apply list_fmap_ext; reflexivity).
      rewrite promise_all_Ok. reflexivity.
Qed.

(** X17: if the call for one of the proposed ranges rejects, the whole
    call rejects, whatever the other ranges returned. *)
Lemma eth_getLogs_sub_call_rejects (params : Params) (fb tb : BlockRef)
    (err : RpcError) (ranges : list Range) (fuel : nat)
    (outs : list (list Event * result RpcError (list SyncLog))) :
  selector params = ByRange fb tb ->
  request (filter_of params) = Throw err ->
  getLogsRetryHelper (filter_of params) err = ShouldRetry ranges ->
  Forall2 (fun r o => getLogs fuel (sub_params (filter_of params) r) = Some o) ranges outs ->
  Exists (fun o => is_ok o.2 = false) outs ->
  exists t e, getLogs (S fuel) params = Some (t, Throw e).
Proof.
  intros Hsel Hreq Hretry Hsub Hex.
  rewrite getLogs_unfold, Hsel, Hreq, Hretry.
  apply mapM_Some in Hsub. rewrite Hsub.
  assert (Hp : is_ok (promise_all (outs.*2)) = false).
  { apply promise_all_Throw. apply Exists_fmap. exact Hex. }
  destruct (promise_all (outs.*2)) as [l|e]; [discriminate|].
  eexists _, e. reflexivity.
Qed.

End GetLogsProperties.

Lemma eth_getLogs_splits_failed_range_witness :
  exists n, forall fuel, (n <= fuel)%nat ->
    SyncService._eth_getLogs string string SyncService.sample_numberToHex
      SyncService.sample_request SyncService.sample_helper fuel SyncService.sample_params
    = Some
        ([ SyncService.Request
             (SyncService.RangeFilter "0x0" "0x64"
                (Some [SyncService.TopicHex "0xddf2"; SyncService.TopicNull])
                (Some (SyncService.Single "0x5fbdb2315678afecb367f032d93f642f64180aa3")));
           SyncService.LoggerDebug "historical"
             [ {| SyncService.fromBlock := "0x0"; SyncService.toBlock := "0x32" |};
               {| SyncService.fromBlock := "0x33"; SyncService.toBlock := "0x64" |} ];
           SyncService.Request
             (SyncService.RangeFilter "0x0" "0x32"
                (Some [SyncService.TopicHex "0xddf2"; SyncService.TopicNull])
                (Some (SyncService.Single "0x5fbdb2315678afecb367f032d93f642f64180aa3")));
           SyncService.Request
             (SyncService.RangeFilter "0x33" "0x64"
                (Some [SyncService.TopicHex "0xddf2"; SyncService.TopicNull])
                (Some (SyncService.Single "0x5fbdb2315678afecb367f032d93f642f64180aa3"))) ],
         Ok ["log1"; "log2"; "log3"]).
Proof.
  destruct (eth_getLogs_splits_failed_range string string
              SyncService.sample_numberToHex SyncService.sample_request
              SyncService.sample_helper SyncService.sample_params
              (SyncService.NumberBlock 0) (SyncService.NumberBlock 100)
              "query returned more than 10000 results" eq_refl eq_refl)
    as [_ Hretry].
  destruct (Hretry
              [ {| SyncService.fromBlock := "0x0"; SyncService.toBlock := "0x32" |};
                {| SyncService.fromBlock := "0x33"; SyncService.toBlock := "0x64" |} ]
              [ ([SyncService.Request
                    (SyncService.RangeFilter "0x0" "0x32"
                       (Some [SyncService.TopicHex "0xddf2"; SyncService.TopicNull])
                       (Some (SyncService.Single
                                "0x5fbdb2315678afecb367f032d93f642f64180aa3")))],
                 ["log1"; "log2"]);
                ([SyncService.Request
                    (SyncService.RangeFilter "0x33" "0x64"
                       (Some [SyncService.TopicHex "0xddf2"; SyncService.TopicNull])
                       (Some (SyncService.Single
                                "0x5fbdb2315678afecb367f032d93f642f64180aa3")))],
                 ["log3"]) ]
              eq_refl) as [_ Hall].
  - repeat constructor; exists 1%nat; reflexivity.
  - exact Hall.
Defined.

(** ** The database service and the namespace lock *)

Section DatabaseProperties.
Import Database.
Local Open Scope Z_scope.

Variable hash : list string -> string.
Variable leaseTtl : Z.

Local Abbreviation setup_ := (setup hash leaseTtl).


(** Whoever sets up successfully holds the lock: the row is locked,
    stamped with the time of the call and records the build. *)
Lemma setup_lock_row (inst : Instance) (now : Z) (args : SetupArgs) (db db' : Db)
    (c : Checkpoint) :
  setup_ inst now args db = Ok (c, db') ->
  namespace_lock db' !! userNamespace inst
  = Some {| is_locked := 1; heartbeat_at := now; build_id := buildId args;
            finalized_checkpoint := c; schema_json := schema args |}.
Proof.
  unfold setup.
  destruct (negb (can_acquire _ _ _)); [discriminate|].
  destruct (namespace_lock db !! userNamespace inst) as [r|].
  - case_bool_decide as Hsame.
    + intros [= <- <-]. cbn. apply lookup_insert_eq.
    + destruct (filter _ _); [|discriminate].
      intros [= <- <-]. cbn. apply lookup_insert_eq.
  - destruct (filter _ _); [|discriminate].
    intros [= <- <-]. cbn. apply lookup_insert_eq.
Qed.


(** What a successful [setup] for another build leaves in the namespace:
    the objects the previous build did not produce, then the views of
    the new build, in schema order. *)
Lemma setup_new_build_namespace (inst : Instance) (now : Z) (args : SetupArgs)
    (db db' : Db) (c : Checkpoint) :
  setup_ inst now args db = Ok (c, db') ->
  (forall r, namespace_lock db !! userNamespace inst = Some r ->
             build_id r <> buildId args) ->
  namespaces db' !! userNamespace inst
  = Some (match namespace_lock db !! userNamespace inst with
          | Some r => foreign_objects hash (userNamespace inst) r db
          | None => default [] (namespaces db !! userNamespace inst)
          end
          ++ map (fun t => (t, View (live_name hash (userNamespace inst) (buildId args) t)))
               (table_names (schema args))).
Proof.
  unfold setup. intros Hsetup Hbuild.
  destruct (negb (can_acquire _ _ _)); [discriminate|].
  destruct (namespace_lock db !! userNamespace inst) as [r|].
  - rewrite bool_decide_eq_false_2 in Hsetup
      by (intros [Hb _]; exact (Hbuild r eq_refl Hb)).
    destruct (filter _ _); [|discriminate].
    injection Hsetup as <- <-. cbn. rewrite lookup_insert_eq, lookup_insert_eq.
    reflexivity.
  - destruct (filter _ _); [|discriminate].
    injection Hsetup as <- <-. cbn. rewrite lookup_insert_eq. reflexivity.
Qed.

(** [setup] leaves the other namespaces as they were. *)
Lemma setup_other_namespace (inst : Instance) (now : Z) (args : SetupArgs)
    (db db' : Db) (c : Checkpoint) (ns : string) :
  setup_ inst now args db = Ok (c, db') ->
  ns <> userNamespace inst ->
  namespaces db' !! ns = namespaces db !! ns.
Proof.
  unfold setup. intros Hsetup Hns.
  destruct (negb (can_acquire _ _ _)); [discriminate|].
  destruct (namespace_lock db !! userNamespace inst) as [r|].
  - case_bool_decide.
    + injection Hsetup as <- <-. reflexivity.
    + destruct (filter _ _); [|discriminate].
      injection Hsetup as <- <-. cbn. rewrite !lookup_insert_ne by congruence.
      reflexivity.
  - destruct (filter _ _); [|discriminate].
    injection Hsetup as <- <-. cbn. rewrite lookup_insert_ne by congruence.
    reflexivity.
Qed.



(** C3: a successful [setup] for a build other than the one on record
    keeps every object of the namespace that the recorded build did not
    produce, unchanged, and adds the views of the new build next to it. *)
Theorem setup_keeps_foreign_tables (inst : Instance) (now : Z) (args : SetupArgs)
    (db db' : Db) (c : Checkpoint) (name : string) (obj : NsObject) :
  setup_ inst now args db = Ok (c, db') ->
  (name, obj) ∈ default [] (namespaces db !! userNamespace inst) ->
  (forall r, namespace_lock db !! userNamespace inst = Some r ->
             produced_by hash (userNamespace inst) r (name, obj) = false) ->
  (forall r, namespace_lock db !! userNamespace inst = Some r ->
             build_id r <> buildId args) ->
  (name, obj) ∈ default [] (namespaces db' !! userNamespace inst)
  /\ forall t, t ∈ table_names (schema args) ->
       (t, View (live_name hash (userNamespace inst) (buildId args) t))
       ∈ default [] (namespaces db' !! userNamespace inst).
Proof.
  intros Hsetup Hin Hforeign Hbuild.
  rewrite (setup_new_build_namespace _ _ _ _ _ _ Hsetup Hbuild). cbn [from_option id].
  split.
  - apply elem_of_app. left.
    destruct (namespace_lock db !! userNamespace inst) as [r|]; [|exact Hin].
    unfold foreign_objects. apply list_elem_of_filter. split; [|exact Hin].
    apply Hforeign. reflexivity.
  - intros t Ht. apply elem_of_app. right.
    apply (list_elem_of_fmap_2
             (fun t => (t, View (live_name hash (userNamespace inst) (buildId args) t)))).
    exact Ht.
Qed.

(** C4: after a successful [setup] the lock row of the instance's
    namespace has [is_locked = 1]; after [kill] it has [is_locked = 0]. *)
Theorem kill_releases_namespace_lock (inst : Instance) (now : Z) (args : SetupArgs)
    (db db' : Db) (c : Checkpoint) :
  setup_ inst now args db = Ok (c, db') ->
  (exists r, namespace_lock db' !! userNamespace inst = Some r /\ is_locked r = 1)
  /\ (exists r, namespace_lock (kill hash inst db') !! userNamespace inst = Some r
                /\ is_locked r = 0).
Proof.
  intros Hsetup. pose proof (setup_lock_row _ _ _ _ _ _ Hsetup) as Hrow. split.
  - eexists. split; [exact Hrow | reflexivity].
  - unfold kill. rewrite Hrow. cbn. rewrite lookup_insert_eq.
    eexists. split; reflexivity.
Qed.

(** [kill] releases whatever row the namespace has, and a released
    namespace can be set up again at once. *)
Lemma kill_then_can_acquire (inst : Instance) (now : Z) (db : Db) :
  can_acquire leaseTtl now (namespace_lock (kill hash inst db) !! userNamespace inst) = true.
Proof.
  unfold kill.
  destruct (namespace_lock db !! userNamespace inst) as [r|] eqn:Hrow.
  - cbn. rewrite lookup_insert_eq. reflexivity.
  - rewrite Hrow. reflexivity.
Qed.

(** Releasing and flushing twice is the same as once: promotion to the
    cache is an idempotent copy. *)
Lemma kill_idempotent (inst : Instance) (db : Db) :
  kill hash inst (kill hash inst db) = kill hash inst db.
Proof.
  unfold kill at 2 3.
  destruct (namespace_lock db !! userNamespace inst) as [r|] eqn:Hrow.
  - unfold kill. cbn [namespace_lock]. rewrite lookup_insert_eq.
    cbn [is_locked heartbeat_at build_id finalized_checkpoint schema_json
         live namespaces ponder_cache].
    rewrite !insert_insert_eq. reflexivity.
  - unfold kill. rewrite Hrow. reflexivity.
Qed.

(** The heartbeat stamps the row with the time of the beat and leaves
    the rest of it alone. *)
Lemma heartbeat_refreshes_lease (inst : Instance) (now : Z) (db : Db) (r : LockRow) :
  namespace_lock db !! userNamespace inst = Some r ->
  namespace_lock (heartbeat inst now db) !! userNamespace inst
  = Some {| is_locked := is_locked r; heartbeat_at := now; build_id := build_id r;
            finalized_checkpoint := finalized_checkpoint r;
            schema_json := schema_json r |}.
Proof.
  intros Hrow. unfold heartbeat. rewrite Hrow. cbn. apply lookup_insert_eq.
Qed.

End DatabaseProperties.

(** *** The scenarios of the test file, run on the model *)

Section DatabaseScenarios.
Import Database.
Local Open Scope Z_scope.



Lemma setup_keeps_foreign_tables_witness :
  ("not_a_ponder_table", ExternalTable [("id", "TEXT")] [])
  ∈ default []
      (namespaces (db_after (setup sample_hash 60000 default_instance 2000 args_def db_foreign))
       !! "public")
  /\ forall t, t ∈ ["Dog"; "Apple"] ->
       (t, View (sample_hash ["public"; "def"; t]))
       ∈ default []
           (namespaces
              (db_after (setup sample_hash 60000 default_instance 2000 args_def db_foreign))
            !! "public").
Proof.
  apply (setup_keeps_foreign_tables sample_hash 60000 default_instance 2000 args_def
           db_foreign
           (db_after (setup sample_hash 60000 default_instance 2000 args_def db_foreign))
           zeroCheckpoint).
  - vm_compute. reflexivity.
  - apply (bool_decide_unpack _). vm_compute. exact I.
  - intros r Hr. vm_compute in Hr. injection Hr as <-. reflexivity.
  - intros r Hr. vm_compute in Hr. injection Hr as <-. discriminate.
Defined.

Lemma kill_releases_namespace_lock_witness :
  (exists r, namespace_lock db_A !! "public" = Some r /\ is_locked r = 1)
  /\ (exists r, namespace_lock (kill sample_hash default_instance db_A) !! "public" = Some r
                /\ is_locked r = 0).
Proof.
  apply (kill_releases_namespace_lock sample_hash 60000 default_instance 1000 args_abc
           empty_db db_A zeroCheckpoint).
  vm_compute. reflexivity.
Defined.

(** "setup does not drop tables that are not managed by ponder" *)
Example test_foreign_tables_listing :
  getTableNames db_foreign "public"
  = ["Pet"; "Person"; "not_a_ponder_table"; "AnotherTable"]
  /\ getTableNames
       (db_after (setup sample_hash 60000 default_instance 2000 args_def db_foreign))
       "public"
     = ["not_a_ponder_table"; "AnotherTable"; "Dog"; "Apple"].
Proof. split; vm_compute; reflexivity. Qed.

(** "setup throws if there is a table name collision" *)
Example test_table_name_collision :
  setup sample_hash 60000 default_instance 1000 args_abc
    (create_external "public" "Pet" empty_db)
  = Throw (TableNameCollision "public" "Pet").
Proof. vm_compute. reflexivity. Qed.

(** "setup succeeds with a live app in a different namespace" *)
Example test_other_namespace :
  let db' := db_after (setup sample_hash 60000 {| userNamespace := "public2" |} 1001
                         args_def db_A) in
  getTableNames db' "public2" = ["Dog"; "Apple"]
  /\ getTableNames db' "public" = ["Pet"; "Person"]
  /\ (live db').*1 = [ "public_abc_Pet"; "public_abc_Person";
                       "public2_def_Dog"; "public2_def_Apple" ].
Proof. repeat split; vm_compute; reflexivity. Qed.

End DatabaseScenarios.

(** ** What an accepted schema guarantees *)

Section SchemaSoundness.
Import Js Schema.

Lemma forallb_false_elem {A} (f : A -> bool) (l : list A) :
  forallb f l = false -> exists x, x ∈ l /\ f x = false.
Proof.
  induction l as [|a l IH]; simpl; [discriminate|].
  destruct (f a) eqn:Ha; simpl.
  - intros H. destruct (IH H) as (x & Hx & Hfx).
    exists x. split; [by apply list_elem_of_further | exact Hfx].
  - intros _. exists a. split; [apply list_elem_of_here | exact Ha].
Qed.

Lemma forallb_true_elem {A} (f : A -> bool) (l : list A) :
  (forall x, x ∈ l -> f x = true) -> forallb f l = true.
Proof.
  induction l as [|a l IH]; intros H; simpl; [reflexivity|].
  rewrite (H a) by apply list_elem_of_here. simpl.
  apply IH. intros x Hx. apply H. by apply list_elem_of_further.
Qed.

(** A name the validator accepts holds no dot. *)
Lemma accepted_name_has_no_dot (key : string) :
  name_regex_test key = true ->
  all_chars (fun c => negb (Ascii.eqb c ".")) key = true.
Proof.
  intros [_ Hall]%andb_true_iff. apply (all_chars_impl name_class); [|exact Hall].
  intros c Hc. destruct (Ascii.eqb_spec c ".") as [->|_]; [discriminate | reflexivity].
Qed.

Lemma referencedEntityName_app_id (name : string) :
  all_chars (fun c => negb (Ascii.eqb c ".")) name = true ->
  referencedEntityName (name ++ ".id") = name.
Proof.
  intros Hnd. unfold referencedEntityName.
  change (name ++ ".id")%string with (name ++ String "." "id")%string.
  rewrite (split_app_sep "." name "id" Hnd). reflexivity.
Qed.

(** X7: [referencedEntityName] gives back the name a reference was
    built from: for a name without a dot, the entity of [name.id] is
    [name]. *)
Theorem referencedEntityName_of_id_reference (name : string) :
  all_chars (fun c => negb (Ascii.eqb c ".")) name = true ->
  referencedEntityName (name ++ ".id") = name.
Proof. exact (referencedEntityName_app_id name). Qed.

(** When [schema] returns, every entry has passed its validation. *)
Lemma schema_ok_entries (schema_obj : list (string * Entity)) (r : SchemaResult) :
  schema schema_obj = Ok r ->
  forall e, e ∈ schema_obj -> validate_entity schema_obj e = Ok tt.
Proof.
  unfold schema. intros H.
  destruct (forEach (validate_entity schema_obj) schema_obj) as [[]|err] eqn:HF;
    [|discriminate].
  apply forEach_ok_iff. exact HF.
Qed.

(** ... and so has every column of its tables. *)
Lemma schema_ok_columns (schema_obj : list (string * Entity)) (r : SchemaResult)
    (tableName : string) (table : Table) :
  schema schema_obj = Ok r ->
  (tableName, ITTable table) ∈ schema_obj ->
  forall entry, entry ∈ table -> validate_column schema_obj tableName entry = Ok tt.
Proof.
  intros Hok Hin.
  pose proof (schema_ok_entries _ _ Hok _ Hin) as Hv. simpl in Hv.
  destruct (validateTableOrColumnName tableName) as [[]|]; [|discriminate].
  simpl in Hv. unfold validate_table in Hv.
  destruct (prop "id" table) as [id|]; [|discriminate].
  destruct (negb (is_id_type (type id))); [discriminate|].
  destruct (optional id); [discriminate|].
  destruct (isList id); [discriminate|].
  destruct (truthy (references id)); [discriminate|].
  apply forEach_ok_iff. exact Hv.
Qed.

(** X1: in a schema that [schema] accepts, every table has an [id]
    column; its type is one of [bigint], [string], [bytes], [int], and it
    is neither optional, nor a list, nor a reference. *)
Theorem schema_ok_tables_have_id (schema_obj : list (string * Entity))
    (r : SchemaResult) (tableName : string) (table : Table) :
  schema schema_obj = Ok r ->
  (tableName, ITTable table) ∈ schema_obj ->
  exists id, prop "id" table = Some id
             /\ is_id_type (type id) = true
             /\ optional id = false /\ isList id = false
             /\ truthy (references id) = false.
Proof.
  intros Hok Hin.
  pose proof (schema_ok_entries _ _ Hok _ Hin) as Hv. simpl in Hv.
  destruct (validateTableOrColumnName tableName) as [[]|]; [|discriminate].
  simpl in Hv. unfold validate_table in Hv.
  destruct (prop "id" table) as [id|]; [|discriminate].
  exists id. split; [reflexivity|].
  destruct (is_id_type (type id)); [|discriminate].
  destruct (optional id); [discriminate|].
  destruct (isList id); [discriminate|].
  destruct (truthy (references id)); [discriminate|].
  repeat split.
Qed.

Lemma schema_ok_entity_names (schema_obj : list (string * Entity)) (r : SchemaResult) :
  schema schema_obj = Ok r ->
  forall name e, (name, e) ∈ schema_obj -> name_regex_test name = true.
Proof.
  intros Hok name e Hin.
  pose proof (schema_ok_entries _ _ Hok _ Hin) as Hv. simpl in Hv.
  destruct (validateTableOrColumnName name) as [[]|] eqn:Hn; [|discriminate].
  apply validateTableOrColumnName_ok_iff. exact Hn.
Qed.

(** X2: in a schema that [schema] accepts, the name of every table and
    enum and the name of every column matches the validator's regular
    expression; the only name that is never looked at is the column [id]. *)
Theorem schema_ok_names_match (schema_obj : list (string * Entity)) (r : SchemaResult) :
  schema schema_obj = Ok r ->
  (forall name e, (name, e) ∈ schema_obj -> name_regex_test name = true)
  /\ (forall tableName table columnName c,
        (tableName, ITTable table) ∈ schema_obj ->
        (columnName, c) ∈ table ->
        columnName <> "id" ->
        name_regex_test columnName = true).
Proof.
  intros Hok. split.
  - exact (schema_ok_entity_names _ _ Hok).
  - intros tableName table columnName c Hin Hcol Hid.
    pose proof (schema_ok_columns _ _ _ _ Hok Hin _ Hcol) as Hv. simpl in Hv.
    destruct (String.eqb_spec columnName "id") as [->|_]; [congruence|].
    destruct (validateTableOrColumnName columnName) as [[]|] eqn:Hn; [|discriminate].
    apply validateTableOrColumnName_ok_iff. exact Hn.
Qed.

(** X3: in a schema that [schema] accepts, a column that carries a
    reference is not a list, and its reference is [Other.id] for another
    entry of the schema that is a table whose [id] has the column's type. *)
Theorem schema_ok_references_resolve (schema_obj : list (string * Entity))
    (r : SchemaResult) (tableName : string) (table : Table)
    (columnName : string) (c : Column) (refs : string) :
  schema schema_obj = Ok r ->
  (tableName, ITTable table) ∈ schema_obj ->
  (columnName, c) ∈ table ->
  columnName <> "id" ->
  references c = Some refs ->
  refs <> "" ->
  isList c = false
  /\ exists other otherTable id,
       (other, ITTable otherTable) ∈ schema_obj
       /\ other <> tableName
       /\ refs = (other ++ ".id")%string
       /\ prop "id" otherTable = Some id
       /\ type id = type c.
Proof.
  intros Hok Hin Hcol Hid Hrefs Hne.
  pose proof (schema_ok_columns _ _ _ _ Hok Hin _ Hcol) as Hv.
  unfold validate_column in Hv.
  destruct (String.eqb_spec columnName "id") as [->|_]; [congruence|].
  destruct (validateTableOrColumnName columnName) as [[]|]; [|discriminate].
  cbn [rbind] in Hv. rewrite Hrefs in Hv.
  assert (Ht : truthy (Some refs) = true).
  { simpl. destruct (String.eqb_spec refs ""); [contradiction | reflexivity]. }
  rewrite Ht in Hv. unfold validate_reference in Hv.
  destruct (forallb _ _) eqn:Hall; [discriminate|]. cbn [rbind] in Hv.
  destruct (forEach _ _) as [[]|] eqn:Hfor; [|discriminate]. cbn [rbind] in Hv.
  destruct (isList c); [discriminate|]. split; [reflexivity|].
  apply forallb_false_elem in Hall as (other & Hother & Heq).
  apply list_elem_of_filter in Hother as [Hneq Hother].
  apply negb_false_iff, String.eqb_eq in Heq.
  apply list_elem_of_fmap in Hother as ([other' e] & -> & He). simpl in *.
  assert (Hname : referencedEntityName refs = other').
  { rewrite <- Heq. apply referencedEntityName_app_id.
    apply accepted_name_has_no_dot.
    exact (schema_ok_entity_names _ _ Hok _ _ He). }
  rewrite forEach_ok_iff in Hfor.
  specialize (Hfor (other', e)).
  rewrite list_elem_of_filter in Hfor. simpl in Hfor.
  specialize (Hfor (conj (eq_sym Hname) He)).
  destruct e as [otherTable|values]; simpl in Hfor; [|discriminate].
  destruct (prop "id" otherTable) as [id|] eqn:Hpid; [|discriminate].
  exists other', otherTable, id.
  split; [exact He|]. split; [exact Hneq|]. split; [symmetry; exact Heq|].
  split; [exact Hpid|].
  destruct (String.eqb_spec (type id) (type c)); [assumption | discriminate].
Qed.

Lemma string_length_app (a b : string) :
  String.length (a ++ b) = (String.length a + String.length b)%nat.
Proof. induction a as [|c a IH]; simpl; [reflexivity | rewrite IH; reflexivity]. Qed.

Lemma string_app_inj_r (a a' t : string) :
  (a ++ t = a' ++ t)%string -> a = a'.
Proof.
  revert a'. induction a as [|c a IH]; intros [|c' a'] H; simpl in H.
  - reflexivity.
  - apply (f_equal String.length) in H. rewrite !string_length_app in H. simpl in H. lia.
  - apply (f_equal String.length) in H. rewrite !string_length_app in H. simpl in H. lia.
  - injection H as -> H. f_equal. apply IH, H.
Qed.

Lemma id_reference_truthy (name : string) : truthy (Some (name ++ ".id")%string) = true.
Proof. destruct name; reflexivity. Qed.

(** X4: a column cannot refer to the [id] of its own table: [schema]
    throws on every schema that holds such a column. *)
Theorem schema_rejects_self_reference (schema_obj : list (string * Entity))
    (tableName : string) (table : Table) (columnName : string) (c : Column) :
  (tableName, ITTable table) ∈ schema_obj ->
  (columnName, c) ∈ table ->
  columnName <> "id" ->
  references c = Some (tableName ++ ".id")%string ->
  is_ok (schema schema_obj) = false.
Proof.
  intros Hin Hcol Hid Hrefs. unfold schema.
  assert (Hf : is_ok (forEach (validate_entity schema_obj) schema_obj) = false).
  { apply (forEach_throws _ _ (tableName, ITTable table) Hin). simpl.
    destruct (validateTableOrColumnName tableName) as [[]|]; [|reflexivity]. simpl.
    unfold validate_table.
    destruct (prop "id" table) as [id|]; [|reflexivity].
    destruct (negb (is_id_type (type id))); [reflexivity|].
    destruct (optional id); [reflexivity|].
    destruct (isList id); [reflexivity|].
    destruct (truthy (references id)); [reflexivity|].
    apply (forEach_throws _ _ (columnName, c) Hcol). unfold validate_column.
    destruct (String.eqb_spec columnName "id") as [->|_]; [congruence|].
    destruct (validateTableOrColumnName columnName) as [[]|]; [|reflexivity].
    cbn [rbind]. rewrite Hrefs, id_reference_truthy. unfold validate_reference.
    rewrite forallb_true_elem; [reflexivity|].
    intros name [Hneq _]%list_elem_of_filter.
    apply negb_true_iff, String.eqb_neq. intros Heq.
    apply Hneq. exact (string_app_inj_r _ _ _ Heq). }
  destruct (forEach (validate_entity schema_obj) schema_obj); [discriminate | reflexivity].
Qed.

(** X5: in a schema that [schema] accepts, a column without a reference
    whose type starts with [enum:] names an enum of the schema, and any
    other column without a reference has one of the six scalar types. *)
Theorem schema_ok_plain_columns (schema_obj : list (string * Entity))
    (r : SchemaResult) (tableName : string) (table : Table)
    (columnName : string) (c : Column) :
  schema schema_obj = Ok r ->
  (tableName, ITTable table) ∈ schema_obj ->
  (columnName, c) ∈ table ->
  columnName <> "id" ->
  truthy (references c) = false ->
  if isEnumType (type c)
  then exists values, (slice_from 5 (type c), ITEnum values) ∈ schema_obj
  else is_scalar (type c) = true.
Proof.
  intros Hok Hin Hcol Hid Href.
  pose proof (schema_ok_columns _ _ _ _ Hok Hin _ Hcol) as Hv.
  unfold validate_column in Hv.
  destruct (String.eqb_spec columnName "id") as [->|_]; [congruence|].
  destruct (validateTableOrColumnName columnName) as [[]|]; [|discriminate].
  cbn [rbind] in Hv.
  assert (Hplain : validate_plain_column schema_obj c = Ok tt).
  { destruct (references c) as [refs|]; [|exact Hv]. rewrite Href in Hv. exact Hv. }
  clear Hv. unfold validate_plain_column in Hplain.
  destruct (isEnumType (type c)).
  - destruct (forallb _ _) eqn:Hall; [discriminate|].
    apply forallb_false_elem in Hall as ([name e] & He & Heq).
    apply list_elem_of_filter in He as [Henum He]. simpl in *.
    apply negb_false_iff, String.eqb_eq in Heq. subst name.
    destruct e as [t|values]; [discriminate|]. exists values. exact He.
  - destruct (is_scalar (type c)); [reflexivity | discriminate].
Qed.

Lemma split_entries_from (schema_obj : list (string * Entity)) (acc : SchemaResult) :
  fold_left
    (fun acc (e : string * Entity) =>
       match e.2 with
       | ITEnum values => {| tables := tables acc; enums := enums acc ++ [(e.1, values)] |}
       | ITTable t => {| tables := tables acc ++ [(e.1, t)]; enums := enums acc |}
       end)
    schema_obj acc
  = {| tables := tables acc
                 ++ omap (fun e : string * Entity =>
                            match e.2 with ITTable t => Some (e.1, t) | ITEnum _ => None end)
                      schema_obj;
       enums := enums acc
                ++ omap (fun e : string * Entity =>
                           match e.2 with ITEnum v => Some (e.1, v) | ITTable _ => None end)
                     schema_obj |}.
Proof.
  revert acc. induction schema_obj as [|[name e] l IH]; intros acc; simpl.
  - rewrite !app_nil_r. destruct acc; reflexivity.
  - rewrite IH. destruct e; simpl; rewrite <- ?app_assoc; reflexivity.
Qed.

(** X6: what [schema] returns holds every table of its argument under
    [tables] and every enum under [enums], each under its name and in the
    order of the argument; nothing is lost and nothing is added. *)
Theorem schema_ok_result (schema_obj : list (string * Entity)) (r : SchemaResult) :
  schema schema_obj = Ok r ->
  tables r = omap (fun e : string * Entity =>
                     match e.2 with ITTable t => Some (e.1, t) | ITEnum _ => None end)
               schema_obj
  /\ enums r = omap (fun e : string * Entity =>
                       match e.2 with ITEnum v => Some (e.1, v) | ITTable _ => None end)
                 schema_obj
  /\ (length (tables r) + length (enums r) = length schema_obj)%nat.
Proof.
  unfold schema. destruct (forEach _ _) as [[]|]; [|discriminate].
  simpl. intros [= <-]. unfold split_entries. rewrite split_entries_from. simpl.
  repeat split.
  induction schema_obj as [|[name e] l IH]; simpl; [reflexivity|].
  unfold omap in IH |- *. destruct e; simpl in *; lia.
Qed.

(** X8: a reference can only point at a table: [schema] throws on every
    schema in which a column refers to [E.id] for an enum [E]. *)
Theorem schema_rejects_reference_to_enum (schema_obj : list (string * Entity))
    (tableName : string) (table : Table) (columnName : string) (c : Column)
    (enumName : string) (values : list string) :
  (tableName, ITTable table) ∈ schema_obj ->
  (columnName, c) ∈ table ->
  columnName <> "id" ->
  references c = Some (enumName ++ ".id")%string ->
  (enumName, ITEnum values) ∈ schema_obj ->
  all_chars (fun ch => negb (Ascii.eqb ch ".")) enumName = true ->
  is_ok (schema schema_obj) = false.
Proof.
  intros Hin Hcol Hid Hrefs Henum Hnd. unfold schema.
  assert (Hf : is_ok (forEach (validate_entity schema_obj) schema_obj) = false).
  { apply (forEach_throws _ _ (tableName, ITTable table) Hin). simpl.
    destruct (validateTableOrColumnName tableName) as [[]|]; [|reflexivity]. simpl.
    unfold validate_table.
    destruct (prop "id" table) as [id|]; [|reflexivity].
    destruct (negb (is_id_type (type id))); [reflexivity|].
    destruct (optional id); [reflexivity|].
    destruct (isList id); [reflexivity|].
    destruct (truthy (references id)); [reflexivity|].
    apply (forEach_throws _ _ (columnName, c) Hcol). unfold validate_column.
    destruct (String.eqb_spec columnName "id") as [->|_]; [congruence|].
    destruct (validateTableOrColumnName columnName) as [[]|]; [|reflexivity].
    cbn [rbind]. rewrite Hrefs, id_reference_truthy. unfold validate_reference.
    destruct (forallb _ _); [reflexivity|]. cbn [rbind].
    assert (Hthrow : is_ok (forEach
              (fun e : string * Entity =>
                 match prop "id" (table_of e.2) with
                 | None => Throw JsTypeError
                 | Some id0 =>
                     if negb (String.eqb (type id0) (type c))
                     then Throw ReferenceTypeError else Ok tt
                 end)
              (filter (fun e : string * Entity =>
                         e.1 = referencedEntityName (enumName ++ ".id"))
                 schema_obj)) = false).
    { apply (forEach_throws _ _ (enumName, ITEnum values)); [|reflexivity].
      apply list_elem_of_filter. split; [|exact Henum]. simpl.
      symmetry. apply referencedEntityName_app_id, Hnd. }
    destruct (forEach _ (filter _ schema_obj)); [discriminate | reflexivity]. }
  destruct (forEach (validate_entity schema_obj) schema_obj); [discriminate | reflexivity].
Qed.

End SchemaSoundness.

(** The membership of a listed element. *)
Ltac elem_of_listed :=
  repeat first [ apply list_elem_of_here | apply list_elem_of_further ].

Section SchemaSoundnessWitnesses.
Import Js Schema Samples.

Lemma schema_ok_tables_have_id_witness :
  exists id, prop "id" pet_table = Some id
             /\ is_id_type (type id) = true
             /\ optional id = false /\ isList id = false
             /\ truthy (references id) = false.
Proof.
  eapply (schema_ok_tables_have_id sample_schema _ "Pet" pet_table).
  - reflexivity.
  - elem_of_listed.
Defined.

Lemma schema_ok_names_match_witness :
  (forall name e, (name, e) ∈ sample_schema -> name_regex_test name = true)
  /\ (forall tableName table columnName c,
        (tableName, ITTable table) ∈ sample_schema ->
        (columnName, c) ∈ table ->
        columnName <> "id" ->
        name_regex_test columnName = true).
Proof.
  eapply (schema_ok_names_match sample_schema). reflexivity.
Defined.

Lemma schema_ok_references_resolve_witness :
  isList (column "bigint" (Some "Person.id") None None) = false
  /\ exists other otherTable id,
       (other, ITTable otherTable) ∈ sample_schema
       /\ other <> "Pet"
       /\ "Person.id" = (other ++ ".id")%string
       /\ prop "id" otherTable = Some id
       /\ type id = type (column "bigint" (Some "Person.id") None None).
Proof.
  eapply (schema_ok_references_resolve sample_schema _ "Pet" pet_table "owner").
  - reflexivity.
  - elem_of_listed.
  - elem_of_listed.
  - discriminate.
  - reflexivity.
  - discriminate.
Defined.

Lemma referencedEntityName_of_id_reference_witness :
  referencedEntityName "Person.id" = "Person".
Proof. apply (referencedEntityName_of_id_reference "Person"). reflexivity. Defined.

Lemma schema_rejects_self_reference_witness :
  is_ok (schema self_reference_schema) = false.
Proof.
  apply (schema_rejects_self_reference self_reference_schema "Node" node_table
           "parent" (column "string" (Some "Node.id") None None)).
  - elem_of_listed.
  - elem_of_listed.
  - discriminate.
  - reflexivity.
Defined.

Lemma schema_ok_plain_columns_witness :
  exists values, ("Kind", ITEnum values) ∈ sample_schema.
Proof.
  eapply (schema_ok_plain_columns sample_schema _ "Pet" pet_table "kind"
           (column "enum:Kind" None (Some true) None)).
  - reflexivity.
  - elem_of_listed.
  - elem_of_listed.
  - discriminate.
  - reflexivity.
Defined.

Lemma schema_ok_result_witness :
  (tables (split_entries sample_schema)).*1 = ["Pet"; "Person"]
  /\ (enums (split_entries sample_schema)).*1 = ["Kind"].
Proof.
  destruct (schema_ok_result sample_schema (split_entries sample_schema) eq_refl)
    as (Ht & He & _).
  rewrite Ht, He. split; reflexivity.
Defined.

Lemma schema_rejects_reference_to_enum_witness :
  is_ok (schema enum_reference_schema) = false.
Proof.
  apply (schema_rejects_reference_to_enum enum_reference_schema "Pet" kinded_table
           "kind" (column "string" (Some "Kind.id") None None) "Kind" ["CAT"; "DOG"]).
  - elem_of_listed.
  - elem_of_listed.
  - discriminate.
  - reflexivity.
  - elem_of_listed.
  - reflexivity.
Defined.

End SchemaSoundnessWitnesses.

(** ** More on the [start] command *)

Section StartOutcomes.
Import Js Start Samples.

(** X9: [start] runs the indexing engine exactly when the runtime passes
    the version test and the first build succeeded; in every other case
    [run] is never called. *)
Theorem start_runs_engine_iff (env : Env) :
  In Run (start env).1 <->
  unsupported_node env = false /\ initialResult env = StatusSuccess.
Proof.
  unfold start, unsupported_node. destruct (node_version env) as [major minor].
  destruct (_ || _); [|destruct (initialResult env)]; simpl.
  - split; [|intros [H _]; discriminate].
    intros H. repeat (destruct H as [H|H]; [discriminate H|]). contradiction.
  - split; [intros _; split; reflexivity|]. intros _. do 10 right. left. reflexivity.
  - split; [|intros [_ H]; discriminate].
    intros H. repeat (destruct H as [H|H]; [discriminate H|]). contradiction.
Qed.

Local Abbreviation dec n := (to_string (Some (Num n))).

(** X10: for a release at or above 18.14, [start] passes the version
    test and goes on to log the config file, create metrics, telemetry
    and the build service, set up the shutdown, run the first build and
    kill the build service; when that build succeeded it then records the
    start of the session, runs the engine and returns. *)
Theorem start_runs_first_build_on_supported_node (major minor : N)
    (patch config : string) (result : BuildResult) :
  ~ (major < 18 \/ (major = 18 /\ minor < 14))%N ->
  (exists rest,
     (start {| process_versions_node := dec major ++ "." ++ dec minor ++ "." ++ patch;
               configRelPath := config; initialResult := result |}).1
     = [ BuildOptions; NewLoggerService;
         LoggerDebug "app" ("Started using config file: " ++ config);
         NewMetricsService; CreateTelemetry; CreateBuildService; SetupShutdown;
         BuildServiceStart false; BuildServiceKill ] ++ rest)
  /\ (result = StatusSuccess ->
      start {| process_versions_node := dec major ++ "." ++ dec minor ++ "." ++ patch;
               configRelPath := config; initialResult := result |}
      = ([ BuildOptions; NewLoggerService;
           LoggerDebug "app" ("Started using config file: " ++ config);
           NewMetricsService; CreateTelemetry; CreateBuildService; SetupShutdown;
           BuildServiceStart false; BuildServiceKill;
           TelemetryRecord "lifecycle:session_start"; Run ],
         Returned tt)).
Proof.
  intros Hok. unfold start.
  rewrite node_version_of_release, (version_test_false _ _ Hok). split.
  - destruct result; eexists; reflexivity.
  - intros ->. reflexivity.
Qed.

Lemma split_head_cons (sep c : ascii) (s : string) :
  Ascii.eqb c sep = false ->
  exists w ws, split sep (String c s) = String c w :: ws.
Proof.
  intros Hc. cbn [split]. rewrite Hc.
  destruct (split sep s) as [|w ws]; eexists _, _; reflexivity.
Qed.

(** No numeral starts with a letter: [Number] gives no finite number for
    such a string. *)
Lemma Number_of_letter (c : ascii) (w : string) :
  is_lower c || is_upper c = true -> Number (String c w) = NaN.
Proof.
  intros Hl. unfold Number.
  assert (Hhex : has_hex_prefix (String c w) = false).
  { destruct w; [reflexivity|]. cbn [has_hex_prefix].
    destruct (Ascii.eqb_spec c "0") as [->|_]; [discriminate Hl | reflexivity]. }
  rewrite Hhex. cbn [DecimalString.NilEmpty.uint_of_string].
  destruct (DecimalString.NilEmpty.uint_of_string w);
    destruct c as [[] [] [] [] [] [] [] []];
    first [ reflexivity | vm_compute in Hl; discriminate Hl ].
Qed.

(** X11: the version test only rejects a version whose first component
    reads as a number below the bound.  When the reported version begins
    with a letter, as in [v18.0.0], that component is no such number, both
    comparisons are false, and [start] goes past the test to create the
    build service and run the first build. *)
Theorem start_lets_non_numeric_version_through (c : ascii) (rest config : string)
    (result : BuildResult) :
  is_lower c || is_upper c = true ->
  exists rest',
    (start {| process_versions_node := String c rest;
              configRelPath := config; initialResult := result |}).1
    = [ BuildOptions; NewLoggerService;
        LoggerDebug "app" ("Started using config file: " ++ config);
        NewMetricsService; CreateTelemetry; CreateBuildService; SetupShutdown;
        BuildServiceStart false; BuildServiceKill ] ++ rest'.
Proof.
  intros Hl. unfold start, node_version. cbn [process_versions_node].
  assert (Hdot : Ascii.eqb c "." = false).
  { destruct (Ascii.eqb_spec c ".") as [->|_]; [discriminate Hl | reflexivity]. }
  destruct (split_head_cons "." c rest Hdot) as (w & ws & ->).
  cbn [map lookup list_lookup]. rewrite (Number_of_letter c w Hl).
  cbn [Js.lt strict_eq orb andb].
  destruct result; eexists; reflexivity.
Qed.

End StartOutcomes.

Lemma start_runs_first_build_on_supported_node_witness :
  Start.start {| Start.process_versions_node := "18.14.0";
                 Start.configRelPath := "ponder.config.ts";
                 Start.initialResult := Start.StatusSuccess |}
  = ([ Start.BuildOptions; Start.NewLoggerService;
       Start.LoggerDebug "app" "Started using config file: ponder.config.ts";
       Start.NewMetricsService; Start.CreateTelemetry; Start.CreateBuildService;
       Start.SetupShutdown; Start.BuildServiceStart false; Start.BuildServiceKill;
       Start.TelemetryRecord "lifecycle:session_start"; Start.Run ],
     Start.Returned tt).
Proof.
  refine (proj2 (start_runs_first_build_on_supported_node 18 14 "0" "ponder.config.ts"
                   Start.StatusSuccess _) eq_refl).
  intros [H|[_ H]]; discriminate H.
Defined.

Lemma start_lets_non_numeric_version_through_witness :
  exists rest',
    (Start.start {| Start.process_versions_node := "v18.0.0";
                    Start.configRelPath := "ponder.config.ts";
                    Start.initialResult := Start.StatusSuccess |}).1
    = [ Start.BuildOptions; Start.NewLoggerService;
        Start.LoggerDebug "app" "Started using config file: ponder.config.ts";
        Start.NewMetricsService; Start.CreateTelemetry; Start.CreateBuildService;
        Start.SetupShutdown; Start.BuildServiceStart false; Start.BuildServiceKill ]
      ++ rest'.
Proof.
  apply (start_lets_non_numeric_version_through "v" "18.0.0" "ponder.config.ts"
           Start.StatusSuccess).
  reflexivity.
Defined.

(** ** More on the rows of logs *)

Section LogRowProperties.
Import Js Encoding Samples.

Variable encodeAsText : string -> string.

Lemma dash_split_inj (a a' b b' : string) :
  all_chars (fun c => negb (Ascii.eqb c "-")) a = true ->
  all_chars (fun c => negb (Ascii.eqb c "-")) a' = true ->
  (a ++ "-" ++ b = a' ++ "-" ++ b')%string ->
  a = a' /\ b = b'.
Proof.
  revert a'. induction a as [|c a IH]; intros [|c' a']; cbn; intros Ha Ha' H;
    cbv [String.append] in H; fold String.append in H.
  - injection H as ->. split; reflexivity.
  - injection H as <- _. discriminate Ha'.
  - injection H as -> _. discriminate Ha.
  - injection H as -> H.
    apply andb_true_iff in Ha as [_ Ha]. apply andb_true_iff in Ha' as [_ Ha'].
    destruct (IH a' Ha Ha' H) as [-> ->]. split; reflexivity.
Qed.

(** X12: the primary key of a log row identifies the log in its block.
    For block hashes without a dash (hexadecimal text has none), two logs
    get the same [id] exactly when they have the same block hash and the
    same log index. *)
Theorem log_id_identifies_block_and_index (log1 log2 : RpcLog.t) :
  all_chars (fun c => negb (Ascii.eqb c "-")) (RpcLog.blockHash log1) = true ->
  all_chars (fun c => negb (Ascii.eqb c "-")) (RpcLog.blockHash log2) = true ->
  InsertableLog.id (rpcToSqliteLog encodeAsText log1)
  = InsertableLog.id (rpcToSqliteLog encodeAsText log2)
  <-> RpcLog.blockHash log1 = RpcLog.blockHash log2
      /\ RpcLog.logIndex log1 = RpcLog.logIndex log2.
Proof.
  intros H1 H2. cbn [rpcToSqliteLog InsertableLog.id]. split.
  - apply dash_split_inj; assumption.
  - intros [-> ->]. reflexivity.
Qed.

Lemma topic_of_nonempty (log : RpcLog.t) (i : nat) (t : string) :
  RpcLog.topics log !! i = Some t -> t <> "" -> topic log i = Some t.
Proof.
  intros Hi Hne. unfold topic, if_truthy. rewrite Hi. simpl.
  destruct (String.eqb_spec t ""); [contradiction | reflexivity].
Qed.

Lemma topic_of_missing (log : RpcLog.t) (i : nat) :
  RpcLog.topics log !! i = None -> topic log i = None.
Proof. intros Hi. unfold topic. rewrite Hi. reflexivity. Qed.

(** X13: a log with at most four topics, none of them empty, keeps them
    all: the topic columns of its row are its topics in order, followed
    by [null] for the positions it does not have. *)
Theorem log_topics_are_kept (log : RpcLog.t) :
  (length (RpcLog.topics log) <= 4)%nat ->
  Forall (fun t => t <> "") (RpcLog.topics log) ->
  topic_columns (rpcToSqliteLog encodeAsText log)
  = (Some <$> RpcLog.topics log) ++ replicate (4 - length (RpcLog.topics log)) None.
Proof.
  intros Hlen Hne. unfold topic_columns.
  cbn [rpcToSqliteLog InsertableLog.topic0 InsertableLog.topic1
       InsertableLog.topic2 InsertableLog.topic3].
  assert (Hcol : forall i, topic log i = RpcLog.topics log !! i).
  { intros i. destruct (RpcLog.topics log !! i) as [t|] eqn:Hi.
    - apply topic_of_nonempty; [exact Hi|].
      rewrite Forall_forall in Hne. apply Hne. eapply list_elem_of_lookup_2, Hi.
    - apply topic_of_missing, Hi. }
  rewrite !Hcol.
  destruct (RpcLog.topics log) as [|t0 [|t1 [|t2 [|t3 [|t4 l]]]]];
    simpl in *; try reflexivity; lia.
Qed.

(** X14: only the first four topics reach the row: cutting the topics of
    a log after the fourth does not change the row. *)
Theorem log_row_ignores_topics_after_fourth (log : RpcLog.t) :
  rpcToSqliteLog encodeAsText log
  = rpcToSqliteLog encodeAsText (with_topics log (take 4 (RpcLog.topics log))).
Proof.
  unfold rpcToSqliteLog, topic. cbn [with_topics RpcLog.topics RpcLog.address
    RpcLog.blockHash RpcLog.blockNumber RpcLog.data RpcLog.logIndex
    RpcLog.transactionHash RpcLog.transactionIndex].
  rewrite !lookup_take_lt by lia. reflexivity.
Qed.

End LogRowProperties.

Lemma log_id_identifies_block_and_index_witness :
  InsertableLog.id
    (Encoding.rpcToSqliteLog (fun x => x) (Samples.sample_log "0xab12" "0x3" []))
  = InsertableLog.id
      (Encoding.rpcToSqliteLog (fun x => x) (Samples.sample_log "0xab12" "0x3" ["0xdd"]))
  <-> "0xab12" = "0xab12" /\ "0x3" = "0x3".
Proof.
  apply (log_id_identifies_block_and_index (fun x => x)
           (Samples.sample_log "0xab12" "0x3" [])
           (Samples.sample_log "0xab12" "0x3" ["0xdd"])); reflexivity.
Defined.

Lemma log_topics_are_kept_witness :
  Samples.topic_columns
    (Encoding.rpcToSqliteLog (fun x => x)
       (Samples.sample_log "0xab12" "0x3" ["0xddf2"; "0x01"]))
  = [Some "0xddf2"; Some "0x01"; None; None].
Proof.
  apply (log_topics_are_kept (fun x => x)
           (Samples.sample_log "0xab12" "0x3" ["0xddf2"; "0x01"])).
  - simpl. lia.
  - repeat constructor; discriminate.
Defined.

(** ** More on the [eth_getLogs] helper *)

Section GetLogsRecursion.
Import Utils SyncService Samples.

Variable SyncLog : Type.
Variable RpcError : Type.
Variable numberToHex : N -> string.
Variable request : Filter -> result RpcError (list SyncLog).
Variable getLogsRetryHelper : Filter -> RpcError -> GetLogsRetryHelperReturnType.

Local Abbreviation getLogs :=
  (_eth_getLogs SyncLog RpcError numberToHex request getLogsRetryHelper).
Local Abbreviation filter_of := (request_filter numberToHex).

Lemma requests_app (t1 t2 : list Event) :
  requests (t1 ++ t2) = requests t1 ++ requests t2.
Proof. unfold requests. apply omap_app. Qed.

Lemma requests_concat (ts : list (list Event)) :
  requests (concat ts) = concat (map requests ts).
Proof.
  induction ts as [|t ts IH]; simpl; [reflexivity|].
  rewrite requests_app, IH. reflexivity.
Qed.

Lemma filter_of_topics_address (params : Params) :
  filter_topics (filter_of params) = topics params
  /\ filter_address (filter_of params) = lower_address (address params).
Proof. unfold request_filter. destruct (selector params); split; reflexivity. Qed.

(** X15: every request that a call of [_eth_getLogs] sends, at whatever
    depth of the recursion, carries the topics the caller gave and the
    caller's address in lowercase. *)
Theorem eth_getLogs_requests_keep_topics_and_address (fuel : nat) :
  forall (params : Params) (out : list Event * result RpcError (list SyncLog)),
    getLogs fuel params = Some out ->
    Forall (fun f => filter_topics f = topics params
                     /\ filter_address f = lower_address (address params))
      (requests out.1).
Proof.
  induction fuel as [|fuel IH]; intros params out; [discriminate|].
  rewrite getLogs_unfold.
  pose proof (filter_of_topics_address params) as Hself.
  destruct (selector params) as [fb tb|h].
  - destruct (request (filter_of params)) as [l|err].
    + intros [= <-]. repeat constructor; apply Hself.
    + destruct (getLogsRetryHelper (filter_of params) err) as [ranges|].
      * destruct (mapM _ ranges) as [outs|] eqn:HM; [|discriminate].
        intros [= <-]. cbn [fst requests omap list_omap].
        constructor; [exact Hself|].
        change (omap _ (concat (outs.*1))) with (requests (concat (outs.*1))).
        rewrite requests_concat. apply Forall_concat, Forall_fmap, Forall_fmap.
        apply mapM_Some in HM.
        clear -IH HM Hself.
        induction HM as [|r o ranges outs Hr _ IHrest]; constructor; [|exact IHrest].
        specialize (IH _ _ Hr). eapply Forall_impl; [exact IH|].
        intros f [Ht Ha]. cbn [sub_params topics address] in Ht, Ha.
        destruct Hself as [Hst Hsa]. rewrite Hst in Ht. rewrite Hsa in Ha.
        rewrite lower_address_idem in Ha. split; assumption.
      * intros [= <-]. repeat constructor; apply Hself.
  - intros [= <-]. repeat constructor; apply Hself.
Qed.

(** X16: a helper that asks for a retry and proposes no range makes the
    call resolve to an empty list of logs: the error of the request is
    swallowed and no further request is sent. *)
Theorem eth_getLogs_retry_without_ranges (params : Params) (fb tb : BlockRef)
    (err : RpcError) (fuel : nat) :
  selector params = ByRange fb tb ->
  request (filter_of params) = Throw err ->
  getLogsRetryHelper (filter_of params) err = ShouldRetry [] ->
  getLogs (S fuel) params
  = Some ([Request (filter_of params); LoggerDebug "historical" []], Ok []).
Proof.
  intros Hsel Hreq Hretry. rewrite getLogs_unfold, Hsel, Hreq, Hretry. reflexivity.
Qed.

(** X18: the recursion ends whenever the helper makes progress.  If some
    measure of filters decreases from every failed request to each range
    the helper proposes for it, every call returns, with fuel just above
    the measure of its first request. *)
Theorem eth_getLogs_returns_under_measure (measure : Filter -> nat) :
  (forall f err ranges r,
     request f = Throw err ->
     getLogsRetryHelper f err = ShouldRetry ranges ->
     r ∈ ranges ->
     (measure (filter_of (sub_params f r)) < measure f)%nat) ->
  forall params, is_Some (getLogs (S (measure (filter_of params))) params).
Proof.
  intros Hdec.
  assert (Hgen : forall fuel params,
             (measure (filter_of params) < fuel)%nat -> is_Some (getLogs fuel params)).
  { induction fuel as [|fuel IH]; intros params Hlt; [lia|].
    rewrite getLogs_unfold.
    destruct (selector params); [|eexists; reflexivity].
    destruct (request (filter_of params)) as [l|err] eqn:Hreq; [eexists; reflexivity|].
    destruct (getLogsRetryHelper (filter_of params) err) as [ranges|] eqn:Hretry;
      [|eexists; reflexivity].
    assert (HM : is_Some (mapM (fun r => getLogs fuel (sub_params (filter_of params) r))
                            ranges)).
    { apply mapM_is_Some. apply Forall_forall. intros r Hr. apply IH.
      specialize (Hdec _ _ _ _ Hreq Hretry Hr). lia. }
    destruct HM as [outs ->]. eexists. reflexivity. }
  intros params. apply Hgen. lia.
Qed.

End GetLogsRecursion.

Section GetLogsRecursionWitnesses.
Import SyncService Samples.

Lemma eth_getLogs_requests_keep_topics_and_address_witness :
  Forall (fun f => filter_topics f = Some [TopicHex "0xddf2"; TopicNull]
                   /\ filter_address f
                      = Some (Single "0x5fbdb2315678afecb367f032d93f642f64180aa3"))
    [ RangeFilter "0x0" "0x64" (Some [TopicHex "0xddf2"; TopicNull])
        (Some (Single "0x5fbdb2315678afecb367f032d93f642f64180aa3"));
      RangeFilter "0x0" "0x32" (Some [TopicHex "0xddf2"; TopicNull])
        (Some (Single "0x5fbdb2315678afecb367f032d93f642f64180aa3"));
      RangeFilter "0x33" "0x64" (Some [TopicHex "0xddf2"; TopicNull])
        (Some (Single "0x5fbdb2315678afecb367f032d93f642f64180aa3")) ].
Proof.
  apply (eth_getLogs_requests_keep_topics_and_address string string
           sample_numberToHex sample_request sample_helper 2 sample_params
           ([ Request (RangeFilter "0x0" "0x64" (Some [TopicHex "0xddf2"; TopicNull])
                         (Some (Single "0x5fbdb2315678afecb367f032d93f642f64180aa3")));
              LoggerDebug "historical"
                [ {| fromBlock := "0x0"; toBlock := "0x32" |};
                  {| fromBlock := "0x33"; toBlock := "0x64" |} ];
              Request (RangeFilter "0x0" "0x32" (Some [TopicHex "0xddf2"; TopicNull])
                         (Some (Single "0x5fbdb2315678afecb367f032d93f642f64180aa3")));
              Request (RangeFilter "0x33" "0x64" (Some [TopicHex "0xddf2"; TopicNull])
                         (Some (Single "0x5fbdb2315678afecb367f032d93f642f64180aa3"))) ],
            Ok ["log1"; "log2"; "log3"])).
  reflexivity.
Defined.

Lemma eth_getLogs_retry_without_ranges_witness :
  _eth_getLogs string string sample_numberToHex sample_request empty_helper 1
    sample_params
  = Some ([ Request (RangeFilter "0x0" "0x64" (Some [TopicHex "0xddf2"; TopicNull])
                       (Some (Single "0x5fbdb2315678afecb367f032d93f642f64180aa3")));
            LoggerDebug "historical" [] ],
          Ok []).
Proof.
  apply (eth_getLogs_retry_without_ranges string string sample_numberToHex
           sample_request empty_helper sample_params (NumberBlock 0) (NumberBlock 100)
           "query returned more than 10000 results" 0); reflexivity.
Defined.

Lemma eth_getLogs_sub_call_rejects_witness :
  exists t e,
    _eth_getLogs string string sample_numberToHex sample_request stubborn_helper 2
      sample_params = Some (t, Throw e).
Proof.
  apply (eth_getLogs_sub_call_rejects string string sample_numberToHex sample_request
           stubborn_helper sample_params (NumberBlock 0) (NumberBlock 100)
           "query returned more than 10000 results"
           [ {| fromBlock := "0x0"; toBlock := "0x32" |};
             {| fromBlock := "0x40"; toBlock := "0x64" |} ]
           1
           [ ([Request (RangeFilter "0x0" "0x32" (Some [TopicHex "0xddf2"; TopicNull])
                          (Some (Single "0x5fbdb2315678afecb367f032d93f642f64180aa3")))],
              Ok ["log1"; "log2"]);
             ([Request (RangeFilter "0x40" "0x64" (Some [TopicHex "0xddf2"; TopicNull])
                          (Some (Single "0x5fbdb2315678afecb367f032d93f642f64180aa3")))],
              Throw "invalid params") ]).
  - reflexivity.
  - reflexivity.
  - reflexivity.
  - repeat constructor.
  - apply Exists_cons_tl, Exists_cons_hd. reflexivity.
Defined.

Lemma eth_getLogs_returns_under_measure_witness :
  is_Some (_eth_getLogs string string sample_numberToHex sample_request sample_helper 2
             sample_params).
Proof.
  apply (eth_getLogs_returns_under_measure string string sample_numberToHex
           sample_request sample_helper sample_measure).
  intros f err ranges r Hreq Hretry Hr.
  unfold sample_helper in Hretry.
  destruct (String.eqb_spec err "query returned more than 10000 results") as [->|_];
    [|discriminate].
  injection Hretry as <-.
  unfold sample_measure at 2. rewrite Hreq. cbn [String.eqb Ascii.eqb Bool.eqb].
  apply elem_of_cons in Hr as [->|Hr]; [vm_compute; constructor|].
  apply elem_of_cons in Hr as [->|Hr]; [vm_compute; constructor|].
  inversion Hr.
Defined.

End GetLogsRecursionWitnesses.

(** ** Handler type generation *)

Section TypegenProperties.
Import Js JsText Typegen.

Variable inherited_text : string -> string.

Lemma all_chars_app (p : ascii -> bool) (a b : string) :
  all_chars p (a ++ b) = all_chars p a && all_chars p b.
Proof.
  induction a as [|c a IH]; cbn; [reflexivity|].
  cbv [String.append]; fold String.append. cbn.
  fold (String.append a b). rewrite IH. apply andb_assoc.
Qed.

Lemma trim_all_digits (d : string) :
  all_chars is_digit d = true -> trim_trailing_digits d = "".
Proof. destruct d as [|c d]; [reflexivity|]. intros H. cbn [trim_trailing_digits]. rewrite H. reflexivity. Qed.

(** Digits appended to a type name are trimmed away with the digits the
    name already ended in. *)
Lemma trim_app_digits (base d : string) :
  all_chars is_digit d = true ->
  trim_trailing_digits (base ++ d) = trim_trailing_digits base.
Proof.
  intros Hd. induction base as [|c base IH].
  - cbv [String.append]. rewrite (trim_all_digits d Hd). reflexivity.
  - change (String c base ++ d)%string with (String c (base ++ d)%string).
    cbn [trim_trailing_digits].
    change (all_chars is_digit (String c (base ++ d)))
      with (is_digit c && all_chars is_digit (base ++ d)%string).
    change (all_chars is_digit (String c base))
      with (is_digit c && all_chars is_digit base).
    rewrite all_chars_app, Hd, andb_true_r, IH. reflexivity.
Qed.

(** No key of the map ends in a digit. *)
Lemma valueTypeMap_key_trimmed (base valueType : string) :
  Schema.prop base valueTypeMap = Some valueType ->
  trim_trailing_digits base = base.
Proof.
  unfold valueTypeMap. cbn [Schema.prop].
  repeat (match goal with
          | |- context [String.eqb ?k base] =>
              destruct (String.eqb_spec k base) as [<-|_]; [intros _; reflexivity|]
          end).
  discriminate.
Qed.

(** X19: the width of a Solidity type does not matter to the generator:
    a parameter whose base type is a key of the map followed by any digits
    ([uint256], [bytes32], [int8]) gets the type the map gives for the key,
    and nothing is reported. *)
Theorem child_type_ignores_width (name base digits valueType : string) :
  Schema.prop base valueTypeMap = Some valueType ->
  all_chars is_digit digits = true ->
  child_type inherited_text (mkParamType name (base ++ digits) None)
  = ((name ++ ": " ++ valueType ++ "; ")%string, []).
Proof.
  intros Hkey Hd. cbn [child_type].
  rewrite (trim_app_digits base digits Hd), (valueTypeMap_key_trimmed _ _ Hkey).
  unfold valueTypeMap_get. rewrite Hkey. reflexivity.
Qed.

(** Induction over parameters, tuples opened. *)
Lemma ParamType_nested_ind (P : ParamType -> Prop) :
  (forall name baseType, P (mkParamType name baseType None)) ->
  (forall name baseType components,
     Forall P components -> P (mkParamType name baseType (Some components))) ->
  forall param, P param.
Proof.
  intros Hleaf Hnode. fix IH 1. intros [name baseType [components|]].
  - apply Hnode. induction components as [|c cs IHcs]; constructor.
    + apply IH.
    + exact IHcs.
  - apply Hleaf.
Qed.

Lemma filter_concat {A} (P : A -> Prop) `{!forall x, Decision (P x)} (ls : list (list A)) :
  filter P (concat ls) = concat (map (filter P) ls).
Proof.
  induction ls as [|l ls IH]; simpl; [reflexivity|].
  rewrite filter_app, IH. reflexivity.
Qed.

Lemma child_type_reports_unhandled_leaves (param : ParamType) :
  (child_type inherited_text param).2
  = filter (fun p => unhandled p = true) (param_leaves param).
Proof.
  induction param as [name baseType | name baseType components IH]
    using ParamType_nested_ind.
  - cbn [child_type param_leaves]. rewrite filter_cons, filter_nil.
    unfold unhandled. cbn [param_baseType].
    destruct (valueTypeMap_get (trim_trailing_digits baseType));
      cbn [snd]; destruct (decide _) as [H|H]; try reflexivity; congruence.
  - cbn [child_type param_leaves snd]. rewrite filter_concat.
    f_equal. rewrite <- !list_fmap_compose.
    apply Forall_fmap_ext_1. exact IH.
Qed.

(** X20: [console.error] is called once for every parameter, at any depth
    inside tuples, whose trimmed base type the map does not know, in
    reading order, and for no other parameter. *)
Theorem generateParamsType_reports_unhandled_leaves (params : list ParamType) :
  (generateParamsType inherited_text params).2
  = filter (fun p => unhandled p = true) (concat (map param_leaves params)).
Proof.
  unfold generateParamsType. cbn [snd]. rewrite filter_concat.
  f_equal. rewrite <- !list_fmap_compose.
  apply list_fmap_ext. intros _ p _. apply child_type_reports_unhandled_leaves.
Qed.

Lemma indexOf_absent (c : ascii) (s : string) :
  all_chars (fun a => negb (Ascii.eqb a c)) s = true -> indexOf c s = (-1)%Z.
Proof.
  induction s as [|a s IH]; cbn [all_chars indexOf]; [reflexivity|].
  intros [Ha Hs]%andb_true_iff. apply negb_true_iff in Ha. rewrite Ha, (IH Hs).
  reflexivity.
Qed.

Lemma indexOf_first (c : ascii) (s rest : string) :
  all_chars (fun a => negb (Ascii.eqb a c)) s = true ->
  indexOf c (s ++ String c rest) = Z.of_nat (String.length s).
Proof.
  induction s as [|a s IH]; cbv [String.append]; fold String.append;
    cbn [all_chars indexOf String.length].
  - intros _. rewrite Ascii.eqb_refl. reflexivity.
  - intros [Ha Hs]%andb_true_iff. apply negb_true_iff in Ha. rewrite Ha, (IH Hs).
    destruct (Z.ltb_spec (Z.of_nat (String.length s)) 0); lia.
Qed.

Lemma slice_to_app (s rest : string) :
  slice_to (String.length s) (s ++ rest) = s.
Proof.
  induction s as [|a s IH]; cbv [String.append]; fold String.append;
    cbn [String.length slice_to].
  - destruct rest; reflexivity.
  - rewrite IH. reflexivity.
Qed.

Lemma slice_to_drop_last (s : string) :
  slice_to (String.length s - 1) s = drop_last s.
Proof.
  induction s as [|a s IH]; [reflexivity|].
  destruct s as [|b s]; [reflexivity|].
  replace (String.length (String b s) - 1)%nat with (String.length s) in IH
    by (cbn [String.length]; lia).
  replace (String.length (String a (String b s)) - 1)%nat with (S (String.length s))
    by (cbn [String.length]; lia).
  change (slice_to (S (String.length s)) (String a (String b s)))
    with (String a (slice_to (String.length s) (String b s))).
  rewrite IH. reflexivity.
Qed.

(** X21: the name of an event is its signature up to the first opening
    parenthesis. *)
Theorem event_name_of_signature (name rest : string) :
  all_chars (fun a => negb (Ascii.eqb a "(")) name = true ->
  event_name (name ++ String "(" rest) = name.
Proof.
  intros Hname. unfold event_name, slice0.
  rewrite (indexOf_first "(" name rest Hname), string_length_app.
  destruct (Z.ltb_spec (Z.of_nat (String.length name)) 0) as [Hneg|_]; [lia|].
  rewrite Z.min_l by lia. rewrite Nat2Z.id. apply slice_to_app.
Qed.

(** X22: a signature without an opening parenthesis loses its last
    character: [indexOf] answers -1 and [slice(0, -1)] stops one short of
    the end. *)
Theorem event_name_without_parenthesis (eventSignature : string) :
  all_chars (fun a => negb (Ascii.eqb a "(")) eventSignature = true ->
  event_name eventSignature = drop_last eventSignature.
Proof.
  intros Hsig. unfold event_name, slice0. rewrite (indexOf_absent "(" _ Hsig).
  cbn [Z.ltb Z.compare].
  replace (Z.to_nat (Z.max (Z.of_nat (String.length eventSignature) + -1) 0))
    with (String.length eventSignature - 1)%nat by lia.
  apply slice_to_drop_last.
Qed.

End TypegenProperties.

Section TypegenWitnesses.
Import Typegen.

Lemma child_type_ignores_width_witness :
  child_type (fun s => s) (mkParamType "amount" "uint256" None)
  = ("amount: BigNumber; ", []).
Proof.
  apply (child_type_ignores_width (fun s => s) "amount" "uint" "256" "BigNumber");
    reflexivity.
Defined.

Lemma event_name_of_signature_witness :
  event_name "Transfer(address,address,uint256)" = "Transfer".
Proof.
  apply (event_name_of_signature "Transfer" "address,address,uint256)"). reflexivity.
Defined.

Lemma event_name_without_parenthesis_witness :
  event_name "Transfer" = "Transfe".
Proof. apply (event_name_without_parenthesis "Transfer"). reflexivity. Defined.

End TypegenWitnesses.
